(** * corePKCS11 PAL for the Windows simulator: object store over files

    A shallow embedding of [source/portable/windows/core_pkcs11_pal.c].
    The C functions are transcribed one by one; the Win32 calls and the
    FreeRTOS allocator they rely on are given by an explicit model of the
    environment (files, open handles, heap blocks, injected failures). *)

From Stdlib Require Import ZArith Strings.Byte.
From stdpp Require Import gmap strings list fin_maps.

Open Scope Z_scope.

(** ** Constants of the headers *)

Module Const.

(** Modelled from the spec: the [CKR_*] return codes come from the PKCS #11
    header [pkcs11t.h], which is not part of the source file.  The spec
    names them as four distinct failures (InvalidHandle, ObjectHandleInvalid,
    FunctionFailed, HostMemory) beside success; the numbers are those of the
    PKCS #11 standard.  The source itself tests success as [0 == ulReturn]. *)
Definition CKR_OK : Z := 0.
Definition CKR_HOST_MEMORY : Z := 2.
Definition CKR_FUNCTION_FAILED : Z := 6.
Definition CKR_KEY_HANDLE_INVALID : Z := 96.      (* 0x60 *)
Definition CKR_OBJECT_HANDLE_INVALID : Z := 130.  (* 0x82 *)

Definition CK_TRUE : Z := 1.
Definition CK_FALSE : Z := 0.

(** FreeRTOS [BaseType_t] truth values. *)
Definition pdTRUE : Z := 1.
Definition pdFALSE : Z := 0.

(** Win32. *)
Definition TRUE : Z := 1.
Definition FALSE : Z := 0.
Definition NULL : Z := 0.
Definition ERROR_SUCCESS : Z := 0.
Definition ERROR_FILE_NOT_FOUND : Z := 2.
Definition ERROR_ACCESS_DENIED : Z := 5.
Definition ERROR_INVALID_HANDLE : Z := 6.
Definition ERROR_NOACCESS : Z := 998.
Definition INVALID_HANDLE_VALUE : Z := -1.
Definition INVALID_FILE_ATTRIBUTES : Z := 4294967295.
Definition INVALID_FILE_SIZE : Z := 4294967295.
Definition FILE_ATTRIBUTE_NORMAL : Z := 128.

(** [DWORD], [uint32_t] and (on Windows) [CK_ULONG] are 32 bits wide. *)
Definition DWORD_MODULUS : Z := 2 ^ 32.

End Const.
Import Const.

(** [enum eObjectHandles]. *)
Definition eInvalidHandle : Z := 0.
Definition eAwsDevicePrivateKey : Z := 1.
Definition eAwsDevicePublicKey : Z := 2.
Definition eAwsDeviceCertificate : Z := 3.
Definition eAwsCodeSigningKey : Z := 4.

(** The file names of the four objects. *)
Definition pkcs11palFILE_NAME_CLIENT_CERTIFICATE : string := "FreeRTOS_P11_Certificate.dat".
Definition pkcs11palFILE_NAME_PUBLIC_KEY : string := "FreeRTOS_P11_PubKey.dat".
Definition pkcs11palFILE_NAME_KEY : string := "FreeRTOS_P11_Key.dat".
Definition pkcs11palFILE_CODE_SIGN_PUBLIC_KEY : string := "FreeRTOS_P11_CodeSignKey.dat".

(** ** Labels *)

(** Modelled from the spec: the four label macros are defined in
    [core_pkcs11_config.h], which is not part of the source file; the spec
    only says that there are four known label constants.  Each field holds
    the [sizeof] bytes of the macro, that is the characters of the string
    literal followed by its terminating NUL, since that is the range
    [memcmp] compares. *)
Record LabelConfig : Type := mkLabelConfig {
  pkcs11configLABEL_DEVICE_CERTIFICATE_FOR_TLS : list byte;
  pkcs11configLABEL_DEVICE_PRIVATE_KEY_FOR_TLS : list byte;
  pkcs11configLABEL_DEVICE_PUBLIC_KEY_FOR_TLS : list byte;
  pkcs11configLABEL_CODE_VERIFICATION_KEY : list byte
}.

(** The bytes of a C string literal: its characters and the NUL. *)
Definition c_literal (s : string) : list byte :=
  String.list_byte_of_string s ++ [x00].

(** The labels of the configuration file shipped with the library, used
    for the concrete evaluations below. *)
Definition stock_labels : LabelConfig :=
  {| pkcs11configLABEL_DEVICE_CERTIFICATE_FOR_TLS := c_literal "Device Cert";
     pkcs11configLABEL_DEVICE_PRIVATE_KEY_FOR_TLS := c_literal "Device Priv TLS Key";
     pkcs11configLABEL_DEVICE_PUBLIC_KEY_FOR_TLS := c_literal "Device Pub TLS Key";
     pkcs11configLABEL_CODE_VERIFICATION_KEY := c_literal "Code Verify Key" |}.

Definition byte_to_Z (b : byte) : Z := Z.of_N (Byte.to_N b).

#[global] Instance byte_eq_decision : EqDecision byte := Byte.byte_eq_dec.

(** [memcmp( p, q, n )] on the bytes readable at [p] and at [q].  The
    result is zero when the first [n] bytes agree, otherwise the difference
    of the first pair that differs.  The C function reads [n] bytes whatever
    the blocks hold, and reading past the end of a block is undefined: the
    value given here for a block that ends before the comparison is decided
    (a mismatch) is a convention of the model, not a behaviour of the
    program.  [memcmp_defined] below tells the two situations apart. *)
Fixpoint memcmp (p q : list byte) (n : nat) {struct n} : Z :=
  match n with
  | O => 0
  | S n' =>
      match p, q with
      | a :: p', b :: q' =>
          if Byte.eqb a b then memcmp p' q' n' else byte_to_Z a - byte_to_Z b
      | [], _ => -1
      | _ :: _, [] => 1
      end
  end.

(** Whether [memcmp( p, q, n )] is decided within the bytes of the two
    blocks: the [n] bytes are all there, or a pair that differs is met before
    either block ends. *)
Fixpoint memcmp_defined (p q : list byte) (n : nat) {struct n} : bool :=
  match n with
  | O => true
  | S n' =>
      match p, q with
      | a :: p', b :: q' => if Byte.eqb a b then memcmp_defined p' q' n' else true
      | _, _ => false
      end
  end.

(** ** Label registry *)

Section Registry.

Context (cfg : LabelConfig).

(** [prvLabelToFilenameHandle].  [pcLabel] is [None] for a NULL pointer and
    otherwise the bytes readable at the pointer.  [pcFileName] and
    [pHandle] are the current contents of the two output cells; the result
    is their contents on return. *)
Definition prvLabelToFilenameHandle (pcLabel : option (list byte))
    (pcFileName : option string) (pHandle : Z) : option string * Z :=
  match pcLabel with
  | Some l =>
      if 0 =? memcmp l (pkcs11configLABEL_DEVICE_CERTIFICATE_FOR_TLS cfg)
                 (length (pkcs11configLABEL_DEVICE_CERTIFICATE_FOR_TLS cfg))
      then (Some pkcs11palFILE_NAME_CLIENT_CERTIFICATE, eAwsDeviceCertificate)
      else if 0 =? memcmp l (pkcs11configLABEL_DEVICE_PRIVATE_KEY_FOR_TLS cfg)
                      (length (pkcs11configLABEL_DEVICE_PRIVATE_KEY_FOR_TLS cfg))
      then (Some pkcs11palFILE_NAME_KEY, eAwsDevicePrivateKey)
      else if 0 =? memcmp l (pkcs11configLABEL_DEVICE_PUBLIC_KEY_FOR_TLS cfg)
                      (length (pkcs11configLABEL_DEVICE_PUBLIC_KEY_FOR_TLS cfg))
      then (Some pkcs11palFILE_NAME_PUBLIC_KEY, eAwsDevicePublicKey)
      else if 0 =? memcmp l (pkcs11configLABEL_CODE_VERIFICATION_KEY cfg)
                      (length (pkcs11configLABEL_CODE_VERIFICATION_KEY cfg))
      then (Some pkcs11palFILE_CODE_SIGN_PUBLIC_KEY, eAwsCodeSigningKey)
      else (None, eInvalidHandle)
  | None => (pcFileName, pHandle)
  end.

End Registry.

(** [prvHandleToFilename].  [pcFileName] is [None] when the output pointer is
    NULL and otherwise the current content of the cell it points to;
    [pIsPrivate] is the current content of the flag cell.  The result is the
    return code and the two cells on return. *)
Definition prvHandleToFilename (xHandle : Z) (pcFileName : option (option string))
    (pIsPrivate : Z) : Z * option (option string) * Z :=
  let xReturn := CKR_OK in
  match pcFileName with
  | Some _ =>
      if xHandle =? eAwsDeviceCertificate then
        (xReturn, Some (Some pkcs11palFILE_NAME_CLIENT_CERTIFICATE), CK_FALSE)
      else if xHandle =? eAwsDevicePrivateKey then
        (xReturn, Some (Some pkcs11palFILE_NAME_KEY), CK_TRUE)
      else if xHandle =? eAwsDevicePublicKey then
        (xReturn, Some (Some pkcs11palFILE_NAME_PUBLIC_KEY), CK_FALSE)
      else if xHandle =? eAwsCodeSigningKey then
        (xReturn, Some (Some pkcs11palFILE_CODE_SIGN_PUBLIC_KEY), CK_FALSE)
      else
        (CKR_KEY_HANDLE_INVALID, pcFileName, pIsPrivate)
  | None => (xReturn, pcFileName, pIsPrivate)
  end.

(** ** The environment: files, handles, heap, failures *)

(** What the environment answers to the next call that can fail.  [Error]
    makes the call fail and leaves [code] as the last-error value (for the
    allocator: makes it return NULL); [ShortRead k] lets a [ReadFile]
    succeed with at most [k] bytes, as when the file shrank in between, and
    is no failure for the other calls. *)
Inductive fault : Type :=
  | NoFault
  | Error (code : Z)
  | ShortRead (k : nat).

Inductive access : Type := GENERIC_READ | GENERIC_WRITE.
Inductive disposition : Type := CREATE_ALWAYS | OPEN_EXISTING.

(** An open file handle: the file it is open on, the access it was opened
    with and the file pointer. *)
Record OpenFile : Type := mkOpenFile {
  of_name : string;
  of_access : access;
  of_pos : nat
}.

Record World : Type := mkWorld {
  files : gmap string (list byte);      (** the directory: name to content *)
  handles : gmap positive OpenFile;     (** open handles *)
  heap : gmap positive (list byte);     (** live blocks of the allocator *)
  faults : list fault;                  (** answers to the coming calls *)
  last_error : Z                        (** what [GetLastError] reports *)
}.

Definition set_files (f : gmap string (list byte)) (w : World) : World :=
  mkWorld f (handles w) (heap w) (faults w) (last_error w).
Definition set_handles (h : gmap positive OpenFile) (w : World) : World :=
  mkWorld (files w) h (heap w) (faults w) (last_error w).
Definition set_heap (m : gmap positive (list byte)) (w : World) : World :=
  mkWorld (files w) (handles w) m (faults w) (last_error w).
Definition set_faults (l : list fault) (w : World) : World :=
  mkWorld (files w) (handles w) (heap w) l (last_error w).
Definition set_last_error (e : Z) (w : World) : World :=
  mkWorld (files w) (handles w) (heap w) (faults w) e.

(** Computations in the environment. *)
Definition OS (A : Type) : Type := World -> A * World.

Definition ret {A : Type} (a : A) : OS A := fun w => (a, w).

Definition bind {A B : Type} (m : OS A) (k : A -> OS B) : OS B :=
  fun w => let (a, w') := m w in k a w'.

Declare Scope os_scope.
Notation "x <- m ;; k" := (bind m (fun x => k))
  (at level 100, m at next level, right associativity) : os_scope.
Delimit Scope os_scope with os.
Bind Scope os_scope with OS.
Open Scope os_scope.

Definition next_fault : OS fault :=
  fun w =>
    match faults w with
    | [] => (NoFault, w)
    | f :: fs => (f, set_faults fs w)
    end.

Definition SetLastError (e : Z) : OS unit := fun w => (tt, set_last_error e w).

Definition GetLastError : OS Z := fun w => (last_error w mod DWORD_MODULUS, w).

(** The handle table entry behind a [HANDLE] value. *)
Definition open_file (hFile : Z) (w : World) : option (positive * OpenFile) :=
  match hFile with
  | Z.pos h => match handles w !! h with Some o => Some (h, o) | None => None end
  | _ => None
  end.

(** [GetFileAttributesA]: an existence probe. *)
Definition GetFileAttributesA (lpFileName : option string) : OS Z :=
  fun w =>
    match lpFileName with
    | Some name =>
        match files w !! name with
        | Some _ => (FILE_ATTRIBUTE_NORMAL, w)
        | None => (INVALID_FILE_ATTRIBUTES, set_last_error ERROR_FILE_NOT_FOUND w)
        end
    | None => (INVALID_FILE_ATTRIBUTES, set_last_error ERROR_FILE_NOT_FOUND w)
    end.

(** [CreateFileA]: [CREATE_ALWAYS] creates the file or truncates it to
    length zero; [OPEN_EXISTING] fails when there is no such file.  Sharing
    violations, permissions and the like are among the injected failures. *)
Definition CreateFileA (lpFileName : string) (acc : access) (disp : disposition) : OS Z :=
  f <- next_fault ;;
  match f with
  | Error e => _ <- SetLastError e ;; ret INVALID_HANDLE_VALUE
  | _ =>
      fun w =>
        let h := fresh (dom (handles w)) in
        let o := mkOpenFile lpFileName acc 0 in
        match disp with
        | CREATE_ALWAYS =>
            (Z.pos h, set_handles (<[h := o]> (handles w))
                        (set_files (<[lpFileName := []]> (files w)) w))
        | OPEN_EXISTING =>
            match files w !! lpFileName with
            | Some _ => (Z.pos h, set_handles (<[h := o]> (handles w)) w)
            | None => (INVALID_HANDLE_VALUE, set_last_error ERROR_FILE_NOT_FOUND w)
            end
        end
  end.

(** The content of a file after [data] is written at offset [pos]. *)
Definition write_at (pos : nat) (data old : list byte) : list byte :=
  take pos old ++ replicate (pos - length old) x00 ++ data
    ++ drop (pos + length data) old.

(** [WriteFile( hFile, lpBuffer, n, &written, NULL )]: the result is the
    [BOOL] and the number of bytes written.  The bytes come from the block
    at [lpBuffer]; a failed write transfers nothing. *)
Definition WriteFile (hFile : Z) (lpBuffer : list byte) (n : Z) : OS (Z * Z) :=
  fun w =>
    match open_file hFile w with
    | Some (h, o) =>
        match of_access o with
        | GENERIC_WRITE =>
            let (f, w1) := next_fault w in
            match f with
            | Error e => ((FALSE, 0), set_last_error e w1)
            | _ =>
                let data := take (Z.to_nat (n mod DWORD_MODULUS)) lpBuffer in
                let old := default [] (files w1 !! of_name o) in
                let o' := mkOpenFile (of_name o) (of_access o) (of_pos o + length data) in
                ((TRUE, Z.of_nat (length data)),
                 set_handles (<[h := o']> (handles w1))
                   (set_files (<[of_name o := write_at (of_pos o) data old]> (files w1)) w1))
            end
        | GENERIC_READ => ((FALSE, 0), set_last_error ERROR_ACCESS_DENIED w)
        end
    | None => ((FALSE, 0), set_last_error ERROR_INVALID_HANDLE w)
    end.

(** [GetFileSize( hFile, &high )]: the result is the low 32 bits of the size
    and the content of the [high] cell on return. *)
Definition GetFileSize (hFile : Z) (lpFileSizeHigh : Z) : OS (Z * Z) :=
  fun w =>
    match open_file hFile w with
    | Some (h, o) =>
        let len := Z.of_nat (length (default [] (files w !! of_name o))) in
        ((len mod DWORD_MODULUS, (len / DWORD_MODULUS) mod DWORD_MODULUS), w)
    | None => ((INVALID_FILE_SIZE, lpFileSizeHigh), set_last_error ERROR_INVALID_HANDLE w)
    end.

(** [ReadFile( hFile, lpBuffer, n, &read, NULL )]: the result is the [BOOL]
    and the number of bytes read, which the call sets to zero before it
    does anything else.  The bytes go to the start of the heap block at
    [lpBuffer]. *)
Definition ReadFile (hFile : Z) (lpBuffer : Z) (n : Z) : OS (Z * Z) :=
  fun w =>
    match open_file hFile w with
    | Some (h, o) =>
        match of_access o with
        | GENERIC_READ =>
            let (f, w1) := next_fault w in
            match f with
            | Error e => ((FALSE, 0), set_last_error e w1)
            | _ =>
                let want := Z.to_nat (n mod DWORD_MODULUS) in
                let want := match f with ShortRead k => Nat.min k want | _ => want end in
                let data := take want (drop (of_pos o) (default [] (files w1 !! of_name o))) in
                let o' := mkOpenFile (of_name o) (of_access o) (of_pos o + length data) in
                match lpBuffer with
                | Z.pos a =>
                    match heap w1 !! a with
                    | Some blk =>
                        ((TRUE, Z.of_nat (length data)),
                         set_handles (<[h := o']> (handles w1))
                           (set_heap (<[a := data ++ drop (length data) blk]> (heap w1)) w1))
                    | None => ((FALSE, 0), set_last_error ERROR_NOACCESS w1)
                    end
                | _ => ((FALSE, 0), set_last_error ERROR_NOACCESS w1)
                end
            end
        | GENERIC_WRITE => ((FALSE, 0), set_last_error ERROR_ACCESS_DENIED w)
        end
    | None => ((FALSE, 0), set_last_error ERROR_INVALID_HANDLE w)
    end.

Definition CloseHandle (hObject : Z) : OS Z :=
  fun w =>
    match open_file hObject w with
    | Some (h, _) => (TRUE, set_handles (delete h (handles w)) w)
    | None => (FALSE, set_last_error ERROR_INVALID_HANDLE w)
    end.

(** [DeleteFileA]; the name is [None] for a NULL pointer. *)
Definition DeleteFileA (lpFileName : option string) : OS Z :=
  f <- next_fault ;;
  match f with
  | Error e => _ <- SetLastError e ;; ret FALSE
  | _ =>
      fun w =>
        match lpFileName with
        | Some name =>
            match files w !! name with
            | Some _ => (TRUE, set_files (delete name (files w)) w)
            | None => (FALSE, set_last_error ERROR_FILE_NOT_FOUND w)
            end
        | None => (FALSE, set_last_error ERROR_FILE_NOT_FOUND w)
        end
  end.

(** [pvPortMalloc]: a fresh block of the wanted size, or NULL. *)
Definition pvPortMalloc (xWantedSize : Z) : OS Z :=
  f <- next_fault ;;
  match f with
  | Error _ => ret NULL
  | _ =>
      fun w =>
        let a := fresh (dom (heap w)) in
        (Z.pos a, set_heap (<[a := replicate (Z.to_nat xWantedSize) x00]> (heap w)) w)
  end.

Definition vPortFree (pv : Z) : OS unit :=
  fun w =>
    match pv with
    | Z.pos a => (tt, set_heap (delete a (heap w)) w)
    | _ => (tt, w)
    end.

(** The bytes of the block a pointer refers to, if it is live. *)
Definition block (p : Z) (w : World) : option (list byte) :=
  match p with
  | Z.pos a => heap w !! a
  | _ => None
  end.

(** ** The object store *)

(** [prvFileExists]. *)
Definition prvFileExists (pcFileName : option string) : OS Z :=
  xReturn <- GetFileAttributesA pcFileName ;;
  if INVALID_FILE_ATTRIBUTES =? xReturn then ret pdFALSE else ret pdTRUE.

(** [PKCS11_PAL_Initialize]. *)
Definition PKCS11_PAL_Initialize : OS Z := ret CKR_OK.

(** The fields of [CK_ATTRIBUTE]; [pValue] is [None] for NULL and otherwise
    the bytes readable at the pointer. *)
Record CK_ATTRIBUTE : Type := mkAttribute {
  type_ : Z;
  pValue : option (list byte);
  ulValueLen : Z
}.

(** The three cells [PKCS11_PAL_GetObjectValue] writes through its pointer
    arguments. *)
Record ObjectValue : Type := mkObjectValue {
  ppucData : Z;
  pulDataSize : Z;
  pIsPrivate : Z
}.

Section Store.

Context (cfg : LabelConfig).

(** [PKCS11_PAL_SaveObject]. *)
Definition PKCS11_PAL_SaveObject (pxLabel : CK_ATTRIBUTE) (pucData : list byte)
    (ulDataSize : Z) : OS Z :=
  let ulStatus := 0 in
  let hFile := INVALID_HANDLE_VALUE in
  let pcFileName : option string := None in
  let xHandle := eInvalidHandle in
  let '(pcFileName, xHandle) :=
    prvLabelToFilenameHandle cfg (pValue pxLabel) pcFileName xHandle in
  match pcFileName with
  | Some name =>
      hFile <- CreateFileA name GENERIC_WRITE CREATE_ALWAYS ;;
      st <- (if INVALID_HANDLE_VALUE =? hFile
             then e <- GetLastError ;; ret (e, eInvalidHandle)
             else ret (ulStatus, xHandle)) ;;
      let '(ulStatus, xHandle) := st in
      st <- (if ERROR_SUCCESS =? ulStatus
             then r <- WriteFile hFile pucData ulDataSize ;;
                  if FALSE =? fst r
                  then e <- GetLastError ;; ret (e, eInvalidHandle)
                  else ret (ulStatus, xHandle)
             else ret (ulStatus, xHandle)) ;;
      let '(ulStatus, xHandle) := st in
      _ <- (if negb (INVALID_HANDLE_VALUE =? hFile)
            then _ <- CloseHandle hFile ;; ret tt
            else ret tt) ;;
      ret xHandle
  | None => ret xHandle
  end.

(** [PKCS11_PAL_FindObject]. *)
Definition PKCS11_PAL_FindObject (pxLabel : option (list byte)) (usLength : Z) : OS Z :=
  let xHandle := eInvalidHandle in
  let pcFileName : option string := None in
  let '(pcFileName, xHandle) :=
    prvLabelToFilenameHandle cfg pxLabel pcFileName xHandle in
  e <- prvFileExists pcFileName ;;
  if negb (pdTRUE =? e) then ret eInvalidHandle else ret xHandle.

End Store.

(** [PKCS11_PAL_GetObjectValue].  [out] holds the cells behind [ppucData],
    [pulDataSize] and [pIsPrivate] at the call; the result is the return
    code and the cells at the return. *)
Definition PKCS11_PAL_GetObjectValue (xHandle : Z) (out : ObjectValue)
    : OS (Z * ObjectValue) :=
  let ulReturn := CKR_KEY_HANDLE_INVALID in
  let hFile := INVALID_HANDLE_VALUE in
  let ulSize := 0 in
  let pcFileName : option string := None in
  let '(ulReturn, cell, isPrivate) :=
    prvHandleToFilename xHandle (Some pcFileName) (pIsPrivate out) in
  let pcFileName := default pcFileName cell in
  let out := mkObjectValue (ppucData out) (pulDataSize out) isPrivate in
  present <- match pcFileName with
             | Some _ => e <- prvFileExists pcFileName ;; ret (pdTRUE =? e)
             | None => ret false
             end ;;
  match pcFileName, present with
  | Some name, true =>
      hFile <- CreateFileA name GENERIC_READ OPEN_EXISTING ;;
      ulReturn <- (if INVALID_HANDLE_VALUE =? hFile
                   then _ <- GetLastError ;; ret CKR_FUNCTION_FAILED
                   else ret ulReturn) ;;
      st <- (if 0 =? ulReturn
             then r <- GetFileSize hFile ulSize ;;
                  let out := mkObjectValue (ppucData out) (fst r) (pIsPrivate out) in
                  p <- pvPortMalloc (pulDataSize out) ;;
                  let out := mkObjectValue p (pulDataSize out) (pIsPrivate out) in
                  ret (if NULL =? ppucData out then CKR_HOST_MEMORY else ulReturn,
                       out, snd r)
             else ret (ulReturn, out, ulSize)) ;;
      let '(ulReturn, out, ulSize) := st in
      st <- (if 0 =? ulReturn
             then r <- ReadFile hFile (ppucData out) (pulDataSize out) ;;
                  ret (if FALSE =? fst r then CKR_FUNCTION_FAILED else ulReturn, snd r)
             else ret (ulReturn, ulSize)) ;;
      let '(ulReturn, ulSize) := st in
      let ulReturn :=
        if 0 =? ulReturn
        then if negb (ulSize =? pulDataSize out) then CKR_FUNCTION_FAILED else CKR_OK
        else ulReturn in
      _ <- (if negb (INVALID_HANDLE_VALUE =? hFile)
            then _ <- CloseHandle hFile ;; ret tt
            else ret tt) ;;
      ret (ulReturn, out)
  | _, _ => ret (ulReturn, out)
  end.

(** [PKCS11_PAL_GetObjectValueCleanup]. *)
Definition PKCS11_PAL_GetObjectValueCleanup (pucData : Z) (ulDataSize : Z) : OS unit :=
  if negb (NULL =? pucData) then vPortFree pucData else ret tt.

(** [PKCS11_PAL_DestroyObject]. *)
Definition PKCS11_PAL_DestroyObject (xHandle : Z) : OS Z :=
  let pcFileName : option string := None in
  let xIsPrivate := CK_TRUE in
  let xResult := CKR_OBJECT_HANDLE_INVALID in
  let '(xResult, cell, xIsPrivate) :=
    prvHandleToFilename xHandle (Some pcFileName) xIsPrivate in
  let pcFileName := default pcFileName cell in
  if xResult =? CKR_OK then
    e <- prvFileExists pcFileName ;;
    if pdTRUE =? e then
      ret_ <- DeleteFileA pcFileName ;;
      if ret_ =? 0 then ret CKR_FUNCTION_FAILED else ret CKR_OK
    else ret xResult
  else ret xResult.

(** ** Vocabulary of the statements *)

(** The four handle constants of [enum eObjectHandles] that name an object. *)
Definition object_handles : list Z :=
  [eAwsDevicePrivateKey; eAwsDevicePublicKey; eAwsDeviceCertificate; eAwsCodeSigningKey].

(** The four label constants of a configuration. *)
Definition known_labels (cfg : LabelConfig) : list (list byte) :=
  [pkcs11configLABEL_DEVICE_CERTIFICATE_FOR_TLS cfg;
   pkcs11configLABEL_DEVICE_PRIVATE_KEY_FOR_TLS cfg;
   pkcs11configLABEL_DEVICE_PUBLIC_KEY_FOR_TLS cfg;
   pkcs11configLABEL_CODE_VERIFICATION_KEY cfg].

(** What a caller of [prvLabelToFilenameHandle] gets from fresh locals
    ([pcFileName = NULL], [xHandle = eInvalidHandle]), as both callers in
    the source set them up. *)
Definition resolve_label (cfg : LabelConfig) (pcLabel : option (list byte))
    : option string * Z :=
  prvLabelToFilenameHandle cfg pcLabel None eInvalidHandle.

(** The storage location [prvHandleToFilename] gives for a handle. *)
Definition location (xHandle : Z) : option string :=
  default None (snd (fst (prvHandleToFilename xHandle (Some None) CK_FALSE))).

(** The environment injects nothing: every coming call meets no fault. *)
Definition quiet (w : World) : Prop := Forall (fun f => f = NoFault) (faults w).

(** The answers of the environment after the first [n] fallible calls. *)
Fixpoint later_answers (n : nat) (fl : list fault) {struct n} : list fault :=
  match n with
  | O => fl
  | S n' => later_answers n' (tl fl)
  end.

(** The answer of the environment to the [n]-th coming fallible call,
    counted from 0. *)
Definition answer (n : nat) (w : World) : fault :=
  hd NoFault (later_answers n (faults w)).

(** An answer that does not make the call fail. *)
Definition succeeds (f : fault) : Prop := forall e, f <> Error e.

(** Concrete inputs for the evaluations. *)
Definition empty_world : World := mkWorld ∅ ∅ ∅ [] 0.

Definition certificate_attribute : CK_ATTRIBUTE :=
  mkAttribute 3 (Some (c_literal "Device Cert")) 11.

Definition unknown_attribute : CK_ATTRIBUTE :=
  mkAttribute 3 (Some (c_literal "No Such Object")) 14.

Definition ABC : list byte := [x41; x42; x43].
Definition longer_object : list byte := [x30; x31; x32; x33; x34; x35; x36].

Definition caller_cells : ObjectValue := mkObjectValue 0 0 CK_TRUE.

(** An empty directory where the three file calls of a save followed by a
    read succeed and the allocator then answers NULL, as an allocator may to
    a request for zero bytes. *)
Definition zero_allocation_refused : World :=
  mkWorld ∅ ∅ ∅ [NoFault; NoFault; NoFault; Error 0] 0.

(** A world where the certificate object holds [content] and the coming
    calls meet the faults [fl]. *)
Definition world_with_certificate (content : list byte) (fl : list fault) : World :=
  mkWorld {[ pkcs11palFILE_NAME_CLIENT_CERTIFICATE := content ]} ∅ ∅ fl 0.

(** * Properties *)

(** ** The label registry *)

Lemma byte_to_Z_inj (a b : byte) : byte_to_Z a = byte_to_Z b -> a = b.
Proof.
  unfold byte_to_Z. intros H. apply N2Z.inj in H.
  pose proof (Byte.of_to_N a) as Ha. pose proof (Byte.of_to_N b) as Hb.
  rewrite H in Ha. congruence.
Qed.

(** [memcmp] over the [sizeof] bytes of a constant is a prefix test. *)
Lemma memcmp_zero_prefix (q p : list byte) :
  memcmp p q (length q) = 0 <-> q `prefix_of` p.
Proof.
  revert p. induction q as [|b q IH]; intros p; simpl.
  - split; [intros _; apply prefix_nil | reflexivity].
  - destruct p as [|a p].
    + split; [done | intros H; by apply prefix_nil_not in H].
    + destruct (Byte.eqb a b) eqn:E.
      * apply Byte.byte_dec_bl in E. subst b. rewrite IH. split.
        -- apply prefix_cons.
        -- apply prefix_cons_inv_2.
      * split.
        -- intros H. assert (a = b) by (apply byte_to_Z_inj; lia). subst.
           rewrite (Byte.byte_dec_lb eq_refl) in E. discriminate.
        -- intros H. apply prefix_cons_inv_1 in H. subst.
           rewrite (Byte.byte_dec_lb eq_refl) in E. discriminate.
Qed.

Lemma memcmp_test (q p : list byte) :
  (0 =? memcmp p q (length q)) = bool_decide (q `prefix_of` p).
Proof.
  destruct (0 =? memcmp p q (length q)) eqn:E; symmetry.
  - apply bool_decide_eq_true. apply memcmp_zero_prefix. lia.
  - apply bool_decide_eq_false. rewrite <- memcmp_zero_prefix. lia.
Qed.

(** The registry has five outcomes, and the handle and the location it
    gives always go together. *)
Lemma prvLabelToFilenameHandle_cases cfg pcLabel fn h :
  prvLabelToFilenameHandle cfg pcLabel fn h ∈
    [ (fn, h);
      (None, eInvalidHandle);
      (Some pkcs11palFILE_NAME_CLIENT_CERTIFICATE, eAwsDeviceCertificate);
      (Some pkcs11palFILE_NAME_KEY, eAwsDevicePrivateKey);
      (Some pkcs11palFILE_NAME_PUBLIC_KEY, eAwsDevicePublicKey);
      (Some pkcs11palFILE_CODE_SIGN_PUBLIC_KEY, eAwsCodeSigningKey) ].
Proof.
  unfold prvLabelToFilenameHandle. destruct pcLabel as [l|]; [|set_solver].
  repeat match goal with
         | |- context [if ?c then _ else _] => destruct c
         end; set_solver.
Qed.

Lemma resolve_label_cases cfg pcLabel :
  resolve_label cfg pcLabel ∈
    [ (None, eInvalidHandle);
      (Some pkcs11palFILE_NAME_CLIENT_CERTIFICATE, eAwsDeviceCertificate);
      (Some pkcs11palFILE_NAME_KEY, eAwsDevicePrivateKey);
      (Some pkcs11palFILE_NAME_PUBLIC_KEY, eAwsDevicePublicKey);
      (Some pkcs11palFILE_CODE_SIGN_PUBLIC_KEY, eAwsCodeSigningKey) ].
Proof.
  unfold resolve_label, prvLabelToFilenameHandle. destruct pcLabel as [l|]; [|set_solver].
  repeat match goal with
         | |- context [if ?c then _ else _] => destruct c
         end; set_solver.
Qed.

(** A label that resolves to a location resolves to the handle whose
    location it is. *)
Lemma resolve_label_location cfg pcLabel name h :
  resolve_label cfg pcLabel = (Some name, h) ->
  h ∈ object_handles /\ location h = Some name.
Proof.
  intros E. pose proof (resolve_label_cases cfg pcLabel) as H. rewrite E in H.
  repeat (apply elem_of_cons in H; destruct H as [H|H]);
    try (by apply elem_of_nil in H); inversion H; subst;
    (split; [unfold object_handles; set_solver | reflexivity]).
Qed.

Lemma resolve_label_none cfg pcLabel h :
  resolve_label cfg pcLabel = (None, h) -> h = eInvalidHandle.
Proof.
  intros E. pose proof (resolve_label_cases cfg pcLabel) as H. rewrite E in H.
  repeat (apply elem_of_cons in H; destruct H as [H|H]);
    try (by apply elem_of_nil in H); by inversion H.
Qed.

(** The handle switch: the four constants, and everything else. *)
Lemma prvHandleToFilename_object h p :
  h ∈ object_handles ->
  exists name priv,
    prvHandleToFilename h (Some None) p = (CKR_OK, Some (Some name), priv)
    /\ location h = Some name.
Proof.
  unfold object_handles. intros H.
  repeat (apply elem_of_cons in H; destruct H as [H|H]);
    try (by apply elem_of_nil in H); subst; eexists _, _; split; reflexivity.
Qed.

Lemma prvHandleToFilename_other h cell p :
  h ∉ object_handles ->
  prvHandleToFilename h (Some cell) p = (CKR_KEY_HANDLE_INVALID, Some cell, p).
Proof.
  unfold object_handles, prvHandleToFilename. intros H.
  assert (h <> eAwsDevicePrivateKey /\ h <> eAwsDevicePublicKey
          /\ h <> eAwsDeviceCertificate /\ h <> eAwsCodeSigningKey) as (H1 & H2 & H3 & H4)
    by (repeat split; intros ->; apply H; set_solver).
  repeat match goal with
         | |- context [?a =? ?b] => destruct (Z.eqb_spec a b); [congruence|]
         end.
  reflexivity.
Qed.

(** Each label constant, and every sequence that begins with one, is a
    label the registry maps. *)
Lemma known_label_resolves cfg (lab l : list byte) :
  lab ∈ known_labels cfg ->
  lab `prefix_of` l ->
  is_Some (fst (resolve_label cfg (Some l))).
Proof.
  unfold known_labels, resolve_label, prvLabelToFilenameHandle. intros Hin Hpre.
  rewrite !memcmp_test.
  repeat match goal with
         | |- context [bool_decide ?P] => destruct (bool_decide_reflect P)
         end; cbn [fst]; eauto.
  repeat (apply elem_of_cons in Hin; destruct Hin as [Hin|Hin]);
    try (by apply elem_of_nil in Hin); subst; contradiction.
Qed.

(** The comparison is undecided within the block exactly when the block is a
    proper prefix of the constant. *)
Lemma memcmp_defined_spec (q p : list byte) :
  memcmp_defined p q (length q) = false
  <-> p `prefix_of` q /\ (length p < length q)%nat.
Proof.
  revert p. induction q as [|b q IH]; intros p; simpl.
  - split; [discriminate | intros [_ H]; lia].
  - destruct p as [|a p].
    + split; [intros _; split; [apply prefix_nil | simpl; lia] | reflexivity].
    + destruct (Byte.eqb a b) eqn:E.
      * apply Byte.byte_dec_bl in E. subst b. rewrite IH. simpl. split.
        -- intros [H1 H2]. split; [by apply prefix_cons | lia].
        -- intros [H1 H2]. split; [by apply prefix_cons_inv_2 in H1 | lia].
      * split; [discriminate|]. intros [H _]. apply prefix_cons_inv_1 in H. subst.
        rewrite (Byte.byte_dec_lb eq_refl) in E. discriminate.
Qed.

(** C7, as the code has it: a byte sequence on which every one of the four
    comparisons is decided within its readable bytes, and that begins with
    none of the four label constants (the [sizeof] bytes that [memcmp]
    compares, NUL included), resolves to the invalid handle and to no
    location, whatever the two output cells held before. *)
Theorem resolve_label_to_handle_no_prefix cfg (l : list byte) fn h :
  Forall (fun lab => memcmp_defined l lab (length lab) = true) (known_labels cfg) ->
  Forall (fun lab => ¬ lab `prefix_of` l) (known_labels cfg) ->
  prvLabelToFilenameHandle cfg (Some l) fn h = (None, eInvalidHandle).
Proof.
  unfold known_labels. intros _ H.
  repeat (apply Forall_cons in H; destruct H as [? H]).
  unfold prvLabelToFilenameHandle. rewrite !memcmp_test.
  repeat (rewrite bool_decide_eq_false_2 by assumption). reflexivity.
Qed.

Lemma resolve_label_to_handle_no_prefix_witness :
  prvLabelToFilenameHandle stock_labels (Some (c_literal "No Such Object"))
    (Some pkcs11palFILE_NAME_KEY) eAwsDevicePrivateKey = (None, eInvalidHandle).
Proof.
  apply (resolve_label_to_handle_no_prefix stock_labels (c_literal "No Such Object")).
  - unfold known_labels. repeat constructor.
  - unfold known_labels. repeat constructor; vm_compute; intros [k Hk]; discriminate.
Defined.

(** C7, as the claim words it, fails: a sequence that is none of the four
    constants but begins with one resolves to that constant's object. *)
Lemma resolve_label_to_handle_longer_sequence :
  let l := c_literal "Device Cert" ++ [x58] in
  (l ∉ known_labels stock_labels)
  /\ resolve_label stock_labels (Some l)
     = (Some pkcs11palFILE_NAME_CLIENT_CERTIFICATE, eAwsDeviceCertificate)
  /\ resolve_label stock_labels (Some l) <> (None, eInvalidHandle).
Proof.
  cbv zeta. split; [|split].
  - unfold known_labels. intros H.
    repeat (apply elem_of_cons in H; destruct H as [H|H]);
      try (by apply elem_of_nil in H); vm_compute in H; discriminate.
  - vm_compute. reflexivity.
  - vm_compute. discriminate.
Qed.

(** ** Find *)

(** C9: [PKCS11_PAL_FindObject] does not look at its length argument. *)
Theorem find_ignores_label_length cfg (pxLabel : option (list byte))
    (usLength1 usLength2 : Z) (w : World) :
  PKCS11_PAL_FindObject cfg pxLabel usLength1 w
  = PKCS11_PAL_FindObject cfg pxLabel usLength2 w.
Proof. reflexivity. Qed.

(** ** Save with a label the registry cannot map *)

(** C8: when the registry gives no location for the label, save returns the
    invalid handle and the whole environment, the files included, is as it
    was. *)
Theorem save_unmapped_label_touches_nothing cfg (pxLabel : CK_ATTRIBUTE)
    (pucData : list byte) (ulDataSize : Z) (w : World) :
  fst (resolve_label cfg (pValue pxLabel)) = None ->
  PKCS11_PAL_SaveObject cfg pxLabel pucData ulDataSize w = (eInvalidHandle, w).
Proof.
  intros H. unfold PKCS11_PAL_SaveObject. fold (resolve_label cfg (pValue pxLabel)).
  destruct (resolve_label cfg (pValue pxLabel)) as [fn h] eqn:E. simpl in H. subst fn.
  apply resolve_label_none in E. subst h. reflexivity.
Qed.

Lemma save_unmapped_label_touches_nothing_witness :
  PKCS11_PAL_SaveObject stock_labels unknown_attribute ABC 3
    (world_with_certificate longer_object [])
  = (eInvalidHandle, world_with_certificate longer_object []).
Proof.
  apply (save_unmapped_label_touches_nothing stock_labels unknown_attribute ABC 3).
  vm_compute. reflexivity.
Defined.

(** ** Running the environment symbolically *)

Lemma next_fault_eq fs hs hp fl le :
  next_fault (mkWorld fs hs hp fl le) = (hd NoFault fl, mkWorld fs hs hp (tl fl) le).
Proof. destruct fl; reflexivity. Qed.

Lemma quiet_hd (fl : list fault) :
  Forall (fun f => f = NoFault) fl -> hd NoFault fl = NoFault.
Proof. intros H. destruct H; [reflexivity | assumption]. Qed.

Lemma quiet_tl (fl : list fault) :
  Forall (fun f => f = NoFault) fl -> Forall (fun f => f = NoFault) (tl fl).
Proof. intros H. destruct H; [constructor | assumption]. Qed.

Lemma fresh_key_free {A : Type} (m : gmap positive A) : m !! fresh (dom m) = None.
Proof. apply not_elem_of_dom. apply is_fresh. Qed.

Lemma write_at_start (data : list byte) : write_at 0 data [] = data.
Proof. unfold write_at. simpl. rewrite drop_nil. apply app_nil_r. Qed.

Lemma read_whole (C : list byte) :
  Z.of_nat (length C) < DWORD_MODULUS ->
  take (Z.to_nat (Z.of_nat (length C) mod DWORD_MODULUS)) (drop 0 C) = C.
Proof.
  intros H. rewrite Z.mod_small by lia. rewrite Nat2Z.id. simpl. apply firstn_all.
Qed.

Ltac os_unfold :=
  unfold bind, ret, SetLastError, GetLastError,
    set_files, set_handles, set_heap, set_faults, set_last_error;
  cbn [from_option id negb fst snd files handles heap faults last_error
       of_name of_access of_pos ppucData pulDataSize pIsPrivate].

(** Decide a comparison of two integer constants, or of a constant with a
    positive handle or address. *)
Ltac closed_int t := first [ is_const t | lazymatch t with Z0 => idtac end ].

Ltac eval_test :=
  match goal with
  | |- context [?a =? ?b] =>
      closed_int a; closed_int b;
      let v := eval vm_compute in (a =? b) in
      progress change (a =? b) with v
  | |- context [INVALID_HANDLE_VALUE =? Z.pos ?p] =>
      progress change (INVALID_HANDLE_VALUE =? Z.pos p) with false
  | |- context [NULL =? Z.pos ?p] =>
      progress change (NULL =? Z.pos p) with false
  end.

Ltac os_run :=
  repeat first
    [ progress os_unfold
    | rewrite next_fault_eq
    | rewrite lookup_insert_eq
    | rewrite insert_insert_eq
    | eval_test
    | progress cbv iota ].

Ltac quiet_run Q :=
  repeat first
    [ progress os_run
    | rewrite quiet_hd by (repeat apply quiet_tl; exact Q) ].

(** ** What save, find and read do when nothing fails *)

Lemma SaveObject_quiet cfg lab D n name h fs hs hp fl le :
  resolve_label cfg (pValue lab) = (Some name, h) ->
  Forall (fun f => f = NoFault) fl ->
  PKCS11_PAL_SaveObject cfg lab D n (mkWorld fs hs hp fl le)
  = (h, mkWorld (<[name := take (Z.to_nat (n mod DWORD_MODULUS)) D]> fs) hs hp
          (tl (tl fl)) le).
Proof.
  intros E Q. unfold PKCS11_PAL_SaveObject. fold (resolve_label cfg (pValue lab)).
  rewrite E. unfold CreateFileA. quiet_run Q.
  unfold WriteFile, open_file. quiet_run Q.
  unfold CloseHandle, open_file. quiet_run Q.
  rewrite write_at_start.
  rewrite delete_insert_id by apply fresh_key_free. reflexivity.
Qed.

Lemma save_whole (D : list byte) :
  Z.of_nat (length D) < DWORD_MODULUS ->
  take (Z.to_nat (Z.of_nat (length D) mod DWORD_MODULUS)) D = D.
Proof. intros H. rewrite Z.mod_small by lia. rewrite Nat2Z.id. apply firstn_all. Qed.

Lemma FindObject_present cfg pxLabel len name h w :
  resolve_label cfg pxLabel = (Some name, h) ->
  is_Some (files w !! name) ->
  PKCS11_PAL_FindObject cfg pxLabel len w = (h, w).
Proof.
  intros E [c Hc]. unfold PKCS11_PAL_FindObject. fold (resolve_label cfg pxLabel).
  rewrite E. unfold prvFileExists, GetFileAttributesA. os_run. rewrite Hc. reflexivity.
Qed.

Lemma GetObjectValue_quiet h name out C fs hs hp fl le :
  h ∈ object_handles ->
  location h = Some name ->
  fs !! name = Some C ->
  Z.of_nat (length C) < DWORD_MODULUS ->
  Forall (fun f => f = NoFault) fl ->
  exists priv,
    PKCS11_PAL_GetObjectValue h out (mkWorld fs hs hp fl le)
    = (CKR_OK,
       mkObjectValue (Z.pos (fresh (dom hp))) (Z.of_nat (length C)) priv,
       mkWorld fs hs (<[fresh (dom hp) := C]> hp) (tl (tl (tl fl))) le).
Proof.
  intros Hh Hloc Hfs Hlen Q.
  destruct (prvHandleToFilename_object h (pIsPrivate out) Hh) as (name' & priv & E & Hloc').
  assert (name' = name) by congruence. subst name'. exists priv.
  unfold PKCS11_PAL_GetObjectValue. rewrite E.
  unfold prvFileExists, GetFileAttributesA. os_run. rewrite Hfs. os_run.
  unfold CreateFileA. quiet_run Q. rewrite Hfs. os_run.
  unfold GetFileSize, open_file. os_run. rewrite Hfs. os_run.
  unfold pvPortMalloc. quiet_run Q.
  unfold ReadFile, open_file. quiet_run Q.
  rewrite Hfs. cbn [from_option id].
  rewrite (Z.mod_small (Z.of_nat (length C))) by (unfold DWORD_MODULUS in *; lia).
  rewrite (read_whole C Hlen). os_run.
  rewrite Z.eqb_refl. os_run.
  unfold CloseHandle, open_file. os_run.
  rewrite delete_insert_id by apply fresh_key_free.
  rewrite Nat2Z.id, drop_replicate, Nat.sub_diag, app_nil_r. reflexivity.
Qed.

(** ** Round trip and overwrite *)



(** ** A save whose write fails *)

(** C10: for a label the registry maps, when the creation of the file
    succeeds and the write that follows fails, save returns the invalid
    handle and leaves the file in place with no content: whatever the
    object held before is gone although the save reported failure. *)
Theorem failed_save_truncates cfg (pxLabel : CK_ATTRIBUTE) (pucData : list byte)
    (ulDataSize : Z) (name : string) (h : Z) (w : World)
    (f : fault) (e : Z) (rest : list fault) (old : list byte) :
  resolve_label cfg (pValue pxLabel) = (Some name, h) ->
  faults w = f :: Error e :: rest ->
  (forall c, f <> Error c) ->
  files w !! name = Some old ->
  let s := PKCS11_PAL_SaveObject cfg pxLabel pucData ulDataSize w in
  fst s = eInvalidHandle
  /\ files (snd s) !! name = Some []
  /\ (old <> [] -> files (snd s) !! name <> Some old).
Proof.
  intros E Hfl Hf Hold. destruct w as [fs hs hp fl le]. simpl in Hfl, Hold. subst fl.
  assert (fst (PKCS11_PAL_SaveObject cfg pxLabel pucData ulDataSize
                 (mkWorld fs hs hp (f :: Error e :: rest) le)) = eInvalidHandle
          /\ files (snd (PKCS11_PAL_SaveObject cfg pxLabel pucData ulDataSize
                 (mkWorld fs hs hp (f :: Error e :: rest) le))) !! name = Some [])
    as [H1 H2].
  { unfold PKCS11_PAL_SaveObject. fold (resolve_label cfg (pValue pxLabel)).
    rewrite E. unfold CreateFileA. os_run. cbn [hd tl].
    destruct f as [|c|k]; [|by destruct (Hf c)|]; os_run;
      unfold WriteFile, open_file; os_run; cbn [hd tl]; os_run;
      unfold CloseHandle, open_file; os_run; auto. }
  cbv zeta. repeat split; [exact H1 | exact H2 |].
  intros Hne. rewrite H2. congruence.
Qed.

Lemma failed_save_truncates_witness :
  let s := PKCS11_PAL_SaveObject stock_labels certificate_attribute ABC 3
             (world_with_certificate longer_object [NoFault; Error 112]) in
  fst s = eInvalidHandle
  /\ files (snd s) !! pkcs11palFILE_NAME_CLIENT_CERTIFICATE = Some []
  /\ (longer_object <> [] ->
      files (snd s) !! pkcs11palFILE_NAME_CLIENT_CERTIFICATE <> Some longer_object).
Proof.
  apply (failed_save_truncates stock_labels certificate_attribute ABC 3
           pkcs11palFILE_NAME_CLIENT_CERTIFICATE eAwsDeviceCertificate
           (world_with_certificate longer_object [NoFault; Error 112])
           NoFault 112 [] longer_object).
  - vm_compute. reflexivity.
  - reflexivity.
  - intros c. discriminate.
  - vm_compute. reflexivity.
Defined.

(** ** Destroy *)

Lemma DestroyObject_other h w :
  h ∉ object_handles ->
  PKCS11_PAL_DestroyObject h w = (CKR_KEY_HANDLE_INVALID, w).
Proof.
  intros H. unfold PKCS11_PAL_DestroyObject.
  rewrite (prvHandleToFilename_other h None CK_TRUE H). reflexivity.
Qed.

Lemma DestroyObject_absent h name w :
  h ∈ object_handles ->
  location h = Some name ->
  files w !! name = None ->
  PKCS11_PAL_DestroyObject h w = (CKR_OK, set_last_error ERROR_FILE_NOT_FOUND w).
Proof.
  intros Hh Hloc Hfs.
  destruct (prvHandleToFilename_object h CK_TRUE Hh) as (name' & priv & E & Hloc').
  assert (name' = name) by congruence. subst name'.
  unfold PKCS11_PAL_DestroyObject. rewrite E.
  unfold prvFileExists, GetFileAttributesA. os_run. rewrite Hfs. os_run. reflexivity.
Qed.

Lemma DestroyObject_present h name C fs hs hp fl le :
  h ∈ object_handles ->
  location h = Some name ->
  fs !! name = Some C ->
  (forall e, hd NoFault fl <> Error e) ->
  PKCS11_PAL_DestroyObject h (mkWorld fs hs hp fl le)
  = (CKR_OK, mkWorld (delete name fs) hs hp (tl fl) le).
Proof.
  intros Hh Hloc Hfs Hok.
  destruct (prvHandleToFilename_object h CK_TRUE Hh) as (name' & priv & E & Hloc').
  assert (name' = name) by congruence. subst name'.
  unfold PKCS11_PAL_DestroyObject. rewrite E.
  unfold prvFileExists, GetFileAttributesA. os_run. rewrite Hfs. os_run.
  unfold DeleteFileA. os_run.
  destruct (hd NoFault fl) as [|e|k]; [|by destruct (Hok e)|];
    os_run; rewrite Hfs; os_run; reflexivity.
Qed.

(** C6: for each of the four object handles, destroying an object whose
    file does not exist returns [CKR_OK] and deletes nothing (only the
    last-error value changes); and unless the environment makes the deletion
    itself fail, two destroys in a row both return [CKR_OK], the second one
    finding no file and deleting nothing. *)
Theorem destroy_idempotent (xHandle : Z) (w : World) :
  xHandle ∈ object_handles ->
  (forall name, location xHandle = Some name -> files w !! name = None ->
     PKCS11_PAL_DestroyObject xHandle w
     = (CKR_OK, set_last_error ERROR_FILE_NOT_FOUND w))
  /\ ((forall e, hd NoFault (faults w) <> Error e) ->
      let d1 := PKCS11_PAL_DestroyObject xHandle w in
      let d2 := PKCS11_PAL_DestroyObject xHandle (snd d1) in
      fst d1 = CKR_OK
      /\ fst d2 = CKR_OK
      /\ (location xHandle ≫= fun name => files (snd d1) !! name) = None
      /\ snd d2 = set_last_error ERROR_FILE_NOT_FOUND (snd d1)).
Proof.
  intros Hh. split.
  - intros name Hloc Hfs. exact (DestroyObject_absent _ _ _ Hh Hloc Hfs).
  - intros Hok. cbv zeta.
    destruct (prvHandleToFilename_object xHandle CK_TRUE Hh) as (name & priv & E & Hloc).
    rewrite Hloc. cbn [mbind option_bind].
    destruct (files w !! name) as [C|] eqn:Hfs.
    + destruct w as [fs hs hp fl le]. simpl in Hok, Hfs.
      rewrite (DestroyObject_present _ _ _ _ _ _ _ _ Hh Hloc Hfs Hok).
      cbn [fst snd files].
      rewrite (DestroyObject_absent _ _ _ Hh Hloc) by apply lookup_delete_eq.
      rewrite lookup_delete_eq. auto.
    + rewrite (DestroyObject_absent _ _ _ Hh Hloc Hfs). cbn [fst snd].
      rewrite (DestroyObject_absent _ _ _ Hh Hloc) by (by destruct w).
      destruct w; auto.
Qed.

Lemma destroy_idempotent_witness :
  PKCS11_PAL_DestroyObject eAwsDeviceCertificate empty_world
  = (CKR_OK, set_last_error ERROR_FILE_NOT_FOUND empty_world)
  /\ (let d1 := PKCS11_PAL_DestroyObject eAwsDeviceCertificate
                  (world_with_certificate ABC []) in
      let d2 := PKCS11_PAL_DestroyObject eAwsDeviceCertificate (snd d1) in
      fst d1 = CKR_OK
      /\ fst d2 = CKR_OK
      /\ (location eAwsDeviceCertificate ≫= fun name => files (snd d1) !! name) = None
      /\ snd d2 = set_last_error ERROR_FILE_NOT_FOUND (snd d1)).
Proof.
  assert (eAwsDeviceCertificate ∈ object_handles) as Hh
    by (unfold object_handles; set_solver).
  split.
  - apply (proj1 (destroy_idempotent eAwsDeviceCertificate empty_world Hh)
             pkcs11palFILE_NAME_CLIENT_CERTIFICATE); reflexivity.
  - apply (proj2 (destroy_idempotent eAwsDeviceCertificate
                    (world_with_certificate ABC []) Hh)).
    intros e. discriminate.
Defined.

(** C3, as the code has it: for a handle that is none of the four object
    handles (the sentinel 0 included) destroy leaves the whole environment as
    it was, but the code it returns is [CKR_KEY_HANDLE_INVALID], the result of
    [prvHandleToFilename], and not [CKR_OBJECT_HANDLE_INVALID], the value
    [xResult] is initialised with. *)
Theorem destroy_unrecognized_handle (xHandle : Z) (w : World) :
  xHandle ∉ object_handles ->
  PKCS11_PAL_DestroyObject xHandle w = (CKR_KEY_HANDLE_INVALID, w)
  /\ fst (PKCS11_PAL_DestroyObject xHandle w) <> CKR_OBJECT_HANDLE_INVALID.
Proof.
  intros H. rewrite (DestroyObject_other _ _ H). split; [reflexivity|].
  cbn [fst]. discriminate.
Qed.

Lemma destroy_unrecognized_handle_witness :
  PKCS11_PAL_DestroyObject eInvalidHandle (world_with_certificate ABC [])
  = (CKR_KEY_HANDLE_INVALID, world_with_certificate ABC [])
  /\ fst (PKCS11_PAL_DestroyObject eInvalidHandle (world_with_certificate ABC []))
     <> CKR_OBJECT_HANDLE_INVALID.
Proof.
  apply (destroy_unrecognized_handle eInvalidHandle (world_with_certificate ABC [])).
  unfold object_handles. intros H.
  repeat (apply elem_of_cons in H; destruct H as [H|H]);
    try (by apply elem_of_nil in H); discriminate.
Defined.

(** ** Reading an object *)

Lemma GetObjectValue_other h out w :
  h ∉ object_handles ->
  PKCS11_PAL_GetObjectValue h out w = (CKR_KEY_HANDLE_INVALID, out, w).
Proof.
  intros H. unfold PKCS11_PAL_GetObjectValue.
  rewrite (prvHandleToFilename_other h None (pIsPrivate out) H).
  os_run. by destruct out.
Qed.

Lemma GetObjectValue_absent h name out w :
  h ∈ object_handles ->
  location h = Some name ->
  files w !! name = None ->
  exists priv,
    PKCS11_PAL_GetObjectValue h out w
    = (CKR_OK, mkObjectValue (ppucData out) (pulDataSize out) priv,
       set_last_error ERROR_FILE_NOT_FOUND w).
Proof.
  intros Hh Hloc Hfs.
  destruct (prvHandleToFilename_object h (pIsPrivate out) Hh) as (name' & priv & E & Hloc').
  assert (name' = name) by congruence. subst name'. exists priv.
  unfold PKCS11_PAL_GetObjectValue. rewrite E.
  unfold prvFileExists, GetFileAttributesA. os_run. rewrite Hfs. os_run. reflexivity.
Qed.

(** C1, as the code has it: for an object handle whose file does not exist
    the read leaves the data pointer and the size untouched, as claimed, but
    what it returns is [CKR_OK], the result of [prvHandleToFilename], and not
    [CKR_FUNCTION_FAILED]: the branch that opens the file is skipped and
    nothing marks the failure. *)
Theorem get_object_value_absent_object (xHandle : Z) (name : string)
    (out : ObjectValue) (w : World) :
  xHandle ∈ object_handles ->
  location xHandle = Some name ->
  files w !! name = None ->
  let g := PKCS11_PAL_GetObjectValue xHandle out w in
  fst (fst g) = CKR_OK
  /\ fst (fst g) <> CKR_FUNCTION_FAILED
  /\ ppucData (snd (fst g)) = ppucData out
  /\ pulDataSize (snd (fst g)) = pulDataSize out
  /\ files (snd g) = files w /\ heap (snd g) = heap w.
Proof.
  intros Hh Hloc Hfs. cbv zeta.
  destruct (GetObjectValue_absent _ _ out _ Hh Hloc Hfs) as [priv ->].
  cbn [fst snd ppucData pulDataSize]. destruct w.
  repeat split; discriminate.
Qed.

Lemma get_object_value_absent_object_witness :
  let g := PKCS11_PAL_GetObjectValue eAwsDeviceCertificate caller_cells empty_world in
  fst (fst g) = CKR_OK
  /\ fst (fst g) <> CKR_FUNCTION_FAILED
  /\ ppucData (snd (fst g)) = ppucData caller_cells
  /\ pulDataSize (snd (fst g)) = pulDataSize caller_cells
  /\ files (snd g) = files empty_world /\ heap (snd g) = heap empty_world.
Proof.
  apply (get_object_value_absent_object eAwsDeviceCertificate
           pkcs11palFILE_NAME_CLIENT_CERTIFICATE caller_cells empty_world).
  - unfold object_handles. set_solver.
  - reflexivity.
  - reflexivity.
Defined.

(** The read never frees: either the heap is as it was, or it has one more
    block, at the address left in the caller's data pointer. *)
Lemma GetObjectValue_heap h out w :
  let g := PKCS11_PAL_GetObjectValue h out w in
  heap (snd g) = heap w
  \/ exists a,
       ppucData (snd (fst g)) = Z.pos a
       /\ heap w !! a = None
       /\ is_Some (heap (snd g) !! a)
       /\ forall b, b <> a -> heap (snd g) !! b = heap w !! b.
Proof.
  cbv zeta. destruct (decide (h ∈ object_handles)) as [Hh|Hh];
    [|rewrite (GetObjectValue_other _ _ _ Hh); by left].
  destruct (prvHandleToFilename_object h (pIsPrivate out) Hh) as (name & priv & E & _).
  destruct w as [fs hs hp fl le].
  unfold PKCS11_PAL_GetObjectValue. rewrite E.
  unfold prvFileExists, GetFileAttributesA. os_run.
  destruct (fs !! name) as [C|] eqn:Hfs; os_run; [|by left].
  assert (forall blk, exists a,
            Z.pos (fresh (dom hp)) = Z.pos a /\ hp !! a = None
            /\ is_Some (<[fresh (dom hp) := blk]> hp !! a)
            /\ forall b, b <> a -> <[fresh (dom hp) := blk]> hp !! b = hp !! b) as Hnew.
  { intros blk. exists (fresh (dom hp)). split; [reflexivity|].
    split; [apply fresh_key_free|]. split; [rewrite lookup_insert_eq; eauto|].
    intros b Hb. by rewrite lookup_insert_ne. }
  unfold CreateFileA. os_run.
  destruct (hd NoFault fl); os_run; rewrite ?Hfs; os_run; try (by left);
    unfold GetFileSize, open_file; os_run; rewrite ?Hfs; os_run;
    unfold pvPortMalloc; os_run;
    (destruct (hd NoFault (tl fl)); os_run;
     [ | unfold CloseHandle, open_file; os_run; by left | ]);
    unfold ReadFile, open_file; os_run;
    destruct (hd NoFault (tl (tl fl))); os_run;
    unfold CloseHandle, open_file; os_run; right; apply Hnew.
Qed.

(** C4, as the claim words it, fails: after a failed [ReadFile], and after a
    short one, the read returns [CKR_FUNCTION_FAILED] while the block it
    allocated is still live and its address sits in the caller's data
    pointer. *)
Lemma get_object_value_failure_leaves_buffer :
  Forall
    (fun fl =>
       let g := PKCS11_PAL_GetObjectValue eAwsDeviceCertificate caller_cells
                  (world_with_certificate ABC fl) in
       fst (fst g) = CKR_FUNCTION_FAILED
       /\ ppucData (snd (fst g)) <> NULL
       /\ is_Some (block (ppucData (snd (fst g))) (snd g)))
    [ [NoFault; NoFault; Error 5]; [NoFault; NoFault; ShortRead 1] ].
Proof.
  repeat constructor; try (vm_compute; discriminate); vm_compute; eauto.
Qed.

(** ** The scenario of the specification *)

(** Save of the certificate gives handle 3, find gives 3, the read gives the
    three bytes, their number and a clear privacy flag, destroy succeeds and
    a later find gives the invalid handle. *)
Example certificate_scenario :
  let s := PKCS11_PAL_SaveObject stock_labels certificate_attribute ABC 3 empty_world in
  let f := PKCS11_PAL_FindObject stock_labels (pValue certificate_attribute) 11 (snd s) in
  let g := PKCS11_PAL_GetObjectValue (fst f) caller_cells (snd f) in
  let d := PKCS11_PAL_DestroyObject (fst f) (snd g) in
  let f' := PKCS11_PAL_FindObject stock_labels (pValue certificate_attribute) 11 (snd d) in
  fst s = 3 /\ fst f = 3
  /\ fst (fst g) = CKR_OK
  /\ block (ppucData (snd (fst g))) (snd g) = Some ABC
  /\ pulDataSize (snd (fst g)) = 3
  /\ pIsPrivate (snd (fst g)) = CK_FALSE
  /\ fst d = CKR_OK
  /\ fst f' = eInvalidHandle.
Proof. vm_compute. repeat split; reflexivity. Qed.

(** A handle outside the enumeration is refused by the read. *)
Example unknown_handle_scenario :
  fst (fst (PKCS11_PAL_GetObjectValue 999 caller_cells empty_world))
  = CKR_KEY_HANDLE_INVALID.
Proof. reflexivity. Qed.

(** * Further properties of the registry and the store *)

(** ** The two registry functions *)

(** The two registry functions agree: the handle a label resolves to is
    accepted by [prvHandleToFilename], which gives the same file name for it,
    and marks it private exactly when it is the private key. *)
Theorem label_and_handle_registries_agree cfg (pcLabel : option (list byte))
    (name : string) (h : Z) (cell : option string) (p : Z) :
  resolve_label cfg pcLabel = (Some name, h) ->
  prvHandleToFilename h (Some cell) p
  = (CKR_OK, Some (Some name),
     if h =? eAwsDevicePrivateKey then CK_TRUE else CK_FALSE).
Proof.
  intros E. pose proof (resolve_label_cases cfg pcLabel) as H. rewrite E in H.
  repeat (apply elem_of_cons in H; destruct H as [H|H]);
    try (by apply elem_of_nil in H); inversion H; subst; reflexivity.
Qed.

Lemma label_and_handle_registries_agree_witness :
  prvHandleToFilename eAwsDevicePrivateKey (Some None) CK_FALSE
  = (CKR_OK, Some (Some pkcs11palFILE_NAME_KEY),
     if eAwsDevicePrivateKey =? eAwsDevicePrivateKey then CK_TRUE else CK_FALSE).
Proof.
  apply (label_and_handle_registries_agree stock_labels
           (Some (c_literal "Device Priv TLS Key"))).
  vm_compute. reflexivity.
Defined.

(** What the label registry hands to its callers is consistent: there is no
    location exactly when the handle is the invalid one, the handle is the
    invalid one or one of the four object handles, and a location is always
    the one of the handle it comes with. *)
Theorem resolve_label_invariant cfg (pcLabel : option (list byte)) :
  let r := resolve_label cfg pcLabel in
  (fst r = None <-> snd r = eInvalidHandle)
  /\ (snd r = eInvalidHandle \/ snd r ∈ object_handles)
  /\ (forall name, fst r = Some name -> location (snd r) = Some name).
Proof.
  cbv zeta. pose proof (resolve_label_cases cfg pcLabel) as H.
  destruct (resolve_label cfg pcLabel) as [fn h].
  repeat (apply elem_of_cons in H; destruct H as [H|H]);
    try (by apply elem_of_nil in H); inversion H; subst; cbn [fst snd];
    (split; [split; intros; (reflexivity || discriminate)|]);
    (split; [first [by left | right; unfold object_handles; set_solver]|]);
    intros name Hn; inversion Hn; reflexivity.
Qed.

Lemma location_inj (h1 h2 : Z) :
  h1 ∈ object_handles -> h2 ∈ object_handles ->
  location h1 = location h2 -> h1 = h2.
Proof.
  unfold object_handles. intros H1 H2.
  repeat (apply elem_of_cons in H1; destruct H1 as [H1|H1]);
    try (by apply elem_of_nil in H1);
  repeat (apply elem_of_cons in H2; destruct H2 as [H2|H2]);
    try (by apply elem_of_nil in H2); subst; vm_compute; congruence.
Qed.

(** No two objects share a file: different object handles have different
    locations. *)
Theorem object_files_distinct (h1 h2 : Z) :
  h1 ∈ object_handles -> h2 ∈ object_handles ->
  h1 <> h2 -> location h1 <> location h2.
Proof. intros H1 H2 Hne Heq. apply Hne. by apply location_inj. Qed.

Lemma object_files_distinct_witness :
  location eAwsDevicePrivateKey <> location eAwsDevicePublicKey.
Proof.
  apply (object_files_distinct eAwsDevicePrivateKey eAwsDevicePublicKey).
  - unfold object_handles. set_solver.
  - unfold object_handles. set_solver.
  - discriminate.
Defined.

(** ** What each operation does in every environment *)

Lemma SaveObject_any cfg lab D n name h fs hs hp fl le :
  resolve_label cfg (pValue lab) = (Some name, h) ->
  exists r fsx fl' le',
    PKCS11_PAL_SaveObject cfg lab D n (mkWorld fs hs hp fl le)
    = (r, mkWorld fsx hs hp fl' le')
    /\ ( (r = h /\ fsx = <[name := take (Z.to_nat (n mod DWORD_MODULUS)) D]> fs
          /\ (forall e, hd NoFault fl <> Error e)
          /\ (forall e, hd NoFault (tl fl) <> Error e))
         \/ (r = eInvalidHandle /\ fsx = fs /\ exists e, hd NoFault fl = Error e)
         \/ (r = eInvalidHandle /\ fsx = <[name := []]> fs
             /\ (forall e, hd NoFault fl <> Error e)
             /\ exists e, hd NoFault (tl fl) = Error e) ).
Proof.
  intros E. unfold PKCS11_PAL_SaveObject. fold (resolve_label cfg (pValue lab)).
  rewrite E. unfold CreateFileA. os_run.
  destruct (hd NoFault fl) as [|e|k] eqn:Hf1; os_run.
  - unfold WriteFile, open_file. os_run.
    destruct (hd NoFault (tl fl)) as [|e2|k2] eqn:Hf2; os_run;
      unfold CloseHandle, open_file; os_run;
      rewrite ?write_at_start, delete_insert_id by apply fresh_key_free;
      eexists _, _, _, _; (split; [reflexivity|]).
    + left. repeat split; discriminate.
    + right. right. repeat split; eauto; discriminate.
    + left. repeat split; discriminate.
  - destruct (ERROR_SUCCESS =? e mod DWORD_MODULUS) eqn:He; os_run;
      [unfold WriteFile, open_file; cbn [INVALID_HANDLE_VALUE]; os_run|];
      eexists _, _, _, _; (split; [reflexivity|]); right; left; eauto.
  - unfold WriteFile, open_file. os_run.
    destruct (hd NoFault (tl fl)) as [|e2|k2] eqn:Hf2; os_run;
      unfold CloseHandle, open_file; os_run;
      rewrite ?write_at_start, delete_insert_id by apply fresh_key_free;
      eexists _, _, _, _; (split; [reflexivity|]).
    + left. repeat split; discriminate.
    + right. right. repeat split; eauto; discriminate.
    + left. repeat split; discriminate.
Qed.

Lemma take_of_length {A : Type} (j m : nat) (C : list A) :
  length (take j C) = m -> take j C = take m C.
Proof.
  rewrite length_take. intros H.
  destruct (Nat.le_gt_cases j (length C)).
  - by replace m with j by lia.
  - rewrite !take_ge by lia. reflexivity.
Qed.

Lemma read_block (C : list byte) (j : nat) (m : Z) :
  Z.of_nat (length (take j (drop 0 C))) = m ->
  take j (drop 0 C) ++ drop (length (take j (drop 0 C))) (replicate (Z.to_nat m) x00)
  = take (Z.to_nat m) C.
Proof.
  intros H. rewrite drop_0 in *.
  assert (length (take j C) = Z.to_nat m) as H' by lia.
  rewrite H', drop_replicate, Nat.sub_diag, app_nil_r.
  by apply take_of_length.
Qed.

Lemma GetObjectValue_any h name out C fs hs hp fl le :
  h ∈ object_handles ->
  location h = Some name ->
  fs !! name = Some C ->
  let m := Z.of_nat (length C) mod DWORD_MODULUS in
  exists rv out' hp' fl' le',
    PKCS11_PAL_GetObjectValue h out (mkWorld fs hs hp fl le)
    = (rv, out', mkWorld fs hs hp' fl' le')
    /\ pIsPrivate out' = snd (prvHandleToFilename h (Some None) (pIsPrivate out))
    /\ ( ((exists e, hd NoFault fl = Error e)
          /\ rv = CKR_FUNCTION_FAILED
          /\ ppucData out' = ppucData out /\ pulDataSize out' = pulDataSize out
          /\ hp' = hp)
         \/ ((forall e, hd NoFault fl <> Error e)
             /\ (exists e, hd NoFault (tl fl) = Error e)
             /\ rv = CKR_HOST_MEMORY
             /\ ppucData out' = NULL /\ pulDataSize out' = m
             /\ hp' = hp)
         \/ ((forall e, hd NoFault fl <> Error e)
             /\ (forall e, hd NoFault (tl fl) <> Error e)
             /\ ppucData out' = Z.pos (fresh (dom hp)) /\ pulDataSize out' = m
             /\ ( (rv = CKR_FUNCTION_FAILED
                   /\ exists blk, hp' = <[fresh (dom hp) := blk]> hp)
                  \/ (rv = CKR_OK
                      /\ (forall e, hd NoFault (tl (tl fl)) <> Error e)
                      /\ hp' = <[fresh (dom hp) := take (Z.to_nat m) C]> hp))) ).
Proof.
  intros Hh Hloc Hfs m.
  destruct (prvHandleToFilename_object h (pIsPrivate out) Hh) as (name' & priv & E & Hloc').
  assert (name' = name) by congruence. subst name'.
  unfold PKCS11_PAL_GetObjectValue. rewrite !E. cbn [snd].
  unfold prvFileExists, GetFileAttributesA. os_run. rewrite Hfs. os_run.
  unfold CreateFileA. os_run.
  assert (m mod DWORD_MODULUS = m) as Hm by (apply Z.mod_mod; discriminate).
  destruct (hd NoFault fl) as [|e|k] eqn:Hf1; os_run; rewrite ?Hfs; os_run;
    [ | eexists _, _, _, _, _; (split; [reflexivity|]); (split; [reflexivity|]); left; repeat split; eauto | ].
  all: unfold GetFileSize, open_file; os_run; rewrite ?Hfs; os_run;
    fold m; unfold pvPortMalloc; os_run;
    (destruct (hd NoFault (tl fl)) as [|e2|k2] eqn:Hf2; os_run;
     [ | unfold CloseHandle, open_file; os_run;
         rewrite delete_insert_id by apply fresh_key_free;
         eexists _, _, _, _, _; (split; [reflexivity|]); (split; [reflexivity|]); right; left;
         repeat split; eauto; discriminate | ]).
  all: unfold ReadFile, open_file; os_run; rewrite ?Hfs; cbn [from_option id]; rewrite ?Hm.
  all: destruct (hd NoFault (tl (tl fl))) as [|e3|k3] eqn:Hf3; os_run.
  all: unfold CloseHandle, open_file; os_run;
       rewrite delete_insert_id by apply fresh_key_free.
  all: try (eexists _, _, _, _, _; (split; [reflexivity|]); (split; [reflexivity|]); right; right;
            repeat split; try discriminate; left; repeat split; eauto; discriminate).
  all: match goal with
       | |- context [Z.of_nat (length ?d) =? ?x] =>
           destruct (Z.eqb_spec (Z.of_nat (length d)) x) as [Hlen|Hlen]
       end; cbn [negb]; cbv iota.
  all: try (rewrite (read_block _ _ _ Hlen)).
  all: eexists _, _, _, _, _; (split; [reflexivity|]); (split; [reflexivity|]); right; right;
       repeat split; try discriminate.
  all: first [ right; repeat split; discriminate | left; split; eauto ].
Qed.

Lemma DestroyObject_any h name fs hs hp fl le :
  h ∈ object_handles ->
  location h = Some name ->
  exists rv fsx fl' le',
    PKCS11_PAL_DestroyObject h (mkWorld fs hs hp fl le)
    = (rv, mkWorld fsx hs hp fl' le')
    /\ ( (fs !! name = None /\ rv = CKR_OK /\ fsx = fs /\ fl' = fl)
         \/ (is_Some (fs !! name) /\ (exists e, hd NoFault fl = Error e)
             /\ rv = CKR_FUNCTION_FAILED /\ fsx = fs)
         \/ (is_Some (fs !! name) /\ (forall e, hd NoFault fl <> Error e)
             /\ rv = CKR_OK /\ fsx = delete name fs) ).
Proof.
  intros Hh Hloc.
  destruct (prvHandleToFilename_object h CK_TRUE Hh) as (name' & priv & E & Hloc').
  assert (name' = name) by congruence. subst name'.
  unfold PKCS11_PAL_DestroyObject. rewrite E.
  unfold prvFileExists, GetFileAttributesA. os_run.
  destruct (fs !! name) as [C|] eqn:Hfs; os_run.
  - unfold DeleteFileA. os_run.
    destruct (hd NoFault fl) as [|e|k] eqn:Hf; os_run; rewrite ?Hfs; os_run;
      eexists _, _, _, _; (split; [reflexivity|]); right.
    + right. repeat split; eauto; discriminate.
    + left. repeat split; eauto.
    + right. repeat split; eauto; discriminate.
  - eexists _, _, _, _. split; [reflexivity|]. left. auto.
Qed.

Lemma FindObject_any cfg pxLabel len fs hs hp fl le :
  exists le',
    PKCS11_PAL_FindObject cfg pxLabel len (mkWorld fs hs hp fl le)
    = (match resolve_label cfg pxLabel with
       | (Some name, h) =>
           match fs !! name with Some _ => h | None => eInvalidHandle end
       | (None, _) => eInvalidHandle
       end, mkWorld fs hs hp fl le').
Proof.
  unfold PKCS11_PAL_FindObject. fold (resolve_label cfg pxLabel).
  destruct (resolve_label cfg pxLabel) as [[name|] h].
  - unfold prvFileExists, GetFileAttributesA. os_run.
    destruct (fs !! name); os_run; eauto.
  - unfold prvFileExists, GetFileAttributesA. os_run. eauto.
Qed.

Lemma object_handle_valid h : h ∈ object_handles -> h <> eInvalidHandle.
Proof.
  unfold object_handles. intros H.
  repeat (apply elem_of_cons in H; destruct H as [H|H]);
    try (by apply elem_of_nil in H); subst; discriminate.
Qed.

Lemma SaveObject_ok cfg lab D n name h fs hs hp fl le :
  resolve_label cfg (pValue lab) = (Some name, h) ->
  succeeds (hd NoFault fl) ->
  succeeds (hd NoFault (tl fl)) ->
  PKCS11_PAL_SaveObject cfg lab D n (mkWorld fs hs hp fl le)
  = (h, mkWorld (<[name := take (Z.to_nat (n mod DWORD_MODULUS)) D]> fs) hs hp
          (tl (tl fl)) le).
Proof.
  intros E H1 H2. unfold PKCS11_PAL_SaveObject. fold (resolve_label cfg (pValue lab)).
  rewrite E. unfold CreateFileA. os_run.
  destruct (hd NoFault fl) as [|e|k]; [|by destruct (H1 e)|]; os_run;
    unfold WriteFile, open_file; os_run;
    (destruct (hd NoFault (tl fl)) as [|e2|k2]; [|by destruct (H2 e2)|]); os_run;
    unfold CloseHandle, open_file; os_run;
    rewrite write_at_start, delete_insert_id by apply fresh_key_free; reflexivity.
Qed.

Lemma GetObjectValue_empty h name out fs hs hp fl le :
  h ∈ object_handles ->
  location h = Some name ->
  fs !! name = Some [] ->
  succeeds (hd NoFault fl) ->
  succeeds (hd NoFault (tl fl)) ->
  succeeds (hd NoFault (tl (tl fl))) ->
  exists priv,
    PKCS11_PAL_GetObjectValue h out (mkWorld fs hs hp fl le)
    = (CKR_OK, mkObjectValue (Z.pos (fresh (dom hp))) 0 priv,
       mkWorld fs hs (<[fresh (dom hp) := []]> hp) (tl (tl (tl fl))) le).
Proof.
  intros Hh Hloc Hfs H1 H2 H3.
  destruct (prvHandleToFilename_object h (pIsPrivate out) Hh) as (name' & priv & E & Hloc').
  assert (name' = name) by congruence. subst name'. exists priv.
  unfold PKCS11_PAL_GetObjectValue. rewrite E.
  unfold prvFileExists, GetFileAttributesA. os_run. rewrite Hfs. os_run.
  unfold CreateFileA. os_run.
  destruct (hd NoFault fl) as [|e|k]; [|by destruct (H1 e)|]; os_run; rewrite Hfs; os_run;
    unfold GetFileSize, open_file; os_run; rewrite Hfs; os_run;
    unfold pvPortMalloc; os_run;
    (destruct (hd NoFault (tl fl)) as [|e2|k2]; [|by destruct (H2 e2)|]); os_run;
    unfold ReadFile, open_file; os_run;
    (destruct (hd NoFault (tl (tl fl))) as [|e3|k3]; [|by destruct (H3 e3)|]); os_run;
    rewrite Hfs; cbn [from_option id length drop take Z.of_nat];
    change (0 mod DWORD_MODULUS) with 0;
    cbn [Z.to_nat Nat.min length drop take replicate app Z.of_nat]; os_run;
    rewrite ?take_nil; cbn [length Z.of_nat app drop]; os_run;
    unfold CloseHandle, open_file; os_run;
    rewrite delete_insert_id by apply fresh_key_free; reflexivity.
Qed.

(** ** The round trip, and the empty object *)

(** C2, as the code has it: for a label the registry maps, a non-empty
    object of at most 32-bit length goes through save, find and read in an
    environment that injects no failure: save and find give the same valid
    handle, the read returns [CKR_OK], its buffer holds exactly the saved
    bytes and the size is their number.  For the empty object save and find
    succeed as well whenever the file calls do (answers 0 and 1 are those of
    the save, answer 2 that of the open in the read), but the read then asks
    the allocator for zero bytes (answer 3): it succeeds with an empty buffer
    and size 0 when the allocator gives a block and [ReadFile] (answer 4)
    does not fail, and it returns [CKR_HOST_MEMORY] with a NULL data pointer
    when the allocator answers NULL. *)
Theorem save_find_get_round_trip cfg (pxLabel : CK_ATTRIBUTE) (D : list byte)
    (usLength : Z) (out : ObjectValue) (w : World) :
  is_Some (fst (resolve_label cfg (pValue pxLabel))) ->
  Z.of_nat (length D) < DWORD_MODULUS ->
  let s := PKCS11_PAL_SaveObject cfg pxLabel D (Z.of_nat (length D)) w in
  let f := PKCS11_PAL_FindObject cfg (pValue pxLabel) usLength (snd s) in
  let g := PKCS11_PAL_GetObjectValue (fst f) out (snd f) in
  (D <> [] -> quiet w ->
     fst s ∈ object_handles
     /\ fst f = fst s
     /\ fst (fst g) = CKR_OK
     /\ block (ppucData (snd (fst g))) (snd g) = Some D
     /\ pulDataSize (snd (fst g)) = Z.of_nat (length D))
  /\ (D = [] ->
      succeeds (answer 0 w) -> succeeds (answer 1 w) -> succeeds (answer 2 w) ->
      fst s ∈ object_handles
      /\ fst f = fst s
      /\ (succeeds (answer 3 w) -> succeeds (answer 4 w) ->
          fst (fst g) = CKR_OK
          /\ block (ppucData (snd (fst g))) (snd g) = Some []
          /\ pulDataSize (snd (fst g)) = 0)
      /\ ((exists e, answer 3 w = Error e) ->
          fst (fst g) = CKR_HOST_MEMORY
          /\ ppucData (snd (fst g)) = NULL
          /\ heap (snd g) = heap w)).
Proof.
  intros [name Hname] Hlen.
  destruct (resolve_label cfg (pValue pxLabel)) as [fn h] eqn:E.
  simpl in Hname. subst fn.
  destruct (resolve_label_location _ _ _ _ E) as [Hh Hloc].
  destruct w as [fs hs hp fl le]. cbv zeta. split.
  - intros _ Q. unfold quiet in Q. simpl in Q.
    rewrite (SaveObject_quiet _ _ _ _ _ _ _ _ _ _ _ E Q), (save_whole D Hlen).
    cbn [fst snd].
    rewrite (FindObject_present _ _ _ _ _ _ E)
      by (cbn [files]; rewrite lookup_insert_eq; eauto).
    cbn [fst snd].
    destruct (GetObjectValue_quiet h name out D (<[name:=D]> fs) hs hp (tl (tl fl)) le
                Hh Hloc (lookup_insert_eq _ _ _) Hlen (quiet_tl _ (quiet_tl _ Q)))
      as [priv ->].
    cbn [fst snd ppucData pulDataSize block heap].
    rewrite lookup_insert_eq. auto.
  - intros -> H0 H1 H2. unfold answer in *. cbn [later_answers faults] in *.
    rewrite (SaveObject_ok _ _ _ _ _ _ _ _ _ _ _ E H0 H1).
    rewrite take_nil. cbn [fst snd].
    rewrite (FindObject_present _ _ _ _ _ _ E)
      by (cbn [files]; rewrite lookup_insert_eq; eauto).
    cbn [fst snd heap]. split; [exact Hh|]. split; [reflexivity|]. split.
    + intros H3 H4.
      destruct (GetObjectValue_empty h name out (<[name:=[]]> fs) hs hp (tl (tl fl)) le
                  Hh Hloc (lookup_insert_eq _ _ _) H2 H3 H4) as [priv ->].
      cbn [fst snd ppucData pulDataSize block heap].
      rewrite lookup_insert_eq. auto.
    + intros [e He].
      destruct (GetObjectValue_any h name out [] (<[name:=[]]> fs) hs hp (tl (tl fl)) le
                  Hh Hloc (lookup_insert_eq _ _ _))
        as (rv & out' & hp' & fl' & le' & -> & _ & H).
      cbn [fst snd heap].
      destruct H as [([c Hc] & _)|[(_ & _ & -> & -> & _ & ->)|(_ & H & _)]];
        [by destruct (H2 c) | done | by destruct (H e)].
Qed.

Lemma save_find_get_round_trip_witness :
  (let s := PKCS11_PAL_SaveObject stock_labels certificate_attribute ABC 3 empty_world in
   let f := PKCS11_PAL_FindObject stock_labels (pValue certificate_attribute) 11 (snd s) in
   let g := PKCS11_PAL_GetObjectValue (fst f) caller_cells (snd f) in
   fst s ∈ object_handles
   /\ fst f = fst s
   /\ fst (fst g) = CKR_OK
   /\ block (ppucData (snd (fst g))) (snd g) = Some ABC
   /\ pulDataSize (snd (fst g)) = 3)
  /\ (let s := PKCS11_PAL_SaveObject stock_labels certificate_attribute [] 0
                 zero_allocation_refused in
      let f := PKCS11_PAL_FindObject stock_labels (pValue certificate_attribute) 11 (snd s) in
      let g := PKCS11_PAL_GetObjectValue (fst f) caller_cells (snd f) in
      fst (fst g) = CKR_HOST_MEMORY
      /\ ppucData (snd (fst g)) = NULL
      /\ heap (snd g) = heap zero_allocation_refused).
Proof.
  assert (is_Some (fst (resolve_label stock_labels (pValue certificate_attribute)))) as Hl
    by (vm_compute; eauto).
  split.
  - apply (proj1 (save_find_get_round_trip stock_labels certificate_attribute ABC 11
                    caller_cells empty_world Hl eq_refl)).
    + discriminate.
    + constructor.
  - apply (proj2 (save_find_get_round_trip stock_labels certificate_attribute [] 11
                    caller_cells zero_allocation_refused Hl eq_refl));
      try reflexivity; try (intros e; discriminate).
    exists 0. reflexivity.
Defined.

(** C2, as the claim words it, fails at length 0: with an allocator that
    answers NULL to the request for zero bytes, and no other call failing, the
    empty object is saved and found, and the read returns [CKR_HOST_MEMORY]
    and hands out no buffer. *)
Lemma round_trip_empty_object_refused :
  let s := PKCS11_PAL_SaveObject stock_labels certificate_attribute [] 0
             zero_allocation_refused in
  let f := PKCS11_PAL_FindObject stock_labels (pValue certificate_attribute) 11 (snd s) in
  let g := PKCS11_PAL_GetObjectValue (fst f) caller_cells (snd f) in
  fst s = eAwsDeviceCertificate
  /\ fst f = eAwsDeviceCertificate
  /\ fst (fst g) = CKR_HOST_MEMORY
  /\ fst (fst g) <> CKR_OK
  /\ ppucData (snd (fst g)) = NULL
  /\ block (ppucData (snd (fst g))) (snd g) = None.
Proof. vm_compute. repeat split; discriminate. Qed.

(** ** A read that fails after its allocation *)

(** C4, as the code has it: when the file of the object exists, the open
    (answer 0) and the allocation (answer 1) do not fail, and the read then
    does not return [CKR_OK] (failed or short [ReadFile], size mismatch), it
    returns [CKR_FUNCTION_FAILED] and the buffer has not been released: it is
    a block that was not allocated before, it is still live on return, and
    its address is what the caller finds in the data pointer, so that
    releasing it is left to the caller. *)
Theorem get_object_value_failure_keeps_buffer (xHandle : Z) (name : string)
    (C : list byte) (out : ObjectValue) (w : World) :
  xHandle ∈ object_handles ->
  location xHandle = Some name ->
  files w !! name = Some C ->
  succeeds (answer 0 w) ->
  succeeds (answer 1 w) ->
  let g := PKCS11_PAL_GetObjectValue xHandle out w in
  fst (fst g) <> CKR_OK ->
  fst (fst g) = CKR_FUNCTION_FAILED
  /\ exists a,
       ppucData (snd (fst g)) = Z.pos a
       /\ heap w !! a = None
       /\ is_Some (block (ppucData (snd (fst g))) (snd g))
       /\ forall b, b <> a -> heap (snd g) !! b = heap w !! b.
Proof.
  intros Hh Hloc Hfs H0 H1. cbv zeta.
  destruct w as [fs hs hp fl le]. unfold answer in *. cbn [later_answers faults files] in *.
  destruct (GetObjectValue_any xHandle name out C fs hs hp fl le Hh Hloc Hfs)
    as (rv & out' & hp' & fl' & le' & -> & _ & H).
  cbn [fst snd heap]. intros Hrv.
  destruct H as [([c Hc] & _)|[(_ & [c Hc] & _)|(_ & _ & Hp & _ & H)]];
    [by destruct (H0 c) | by destruct (H1 c) |].
  destruct H as [(-> & blk & ->)|(-> & _)]; [|done].
  split; [reflexivity|]. exists (fresh (dom hp)). rewrite Hp. cbn [block heap].
  split; [reflexivity|]. split; [apply fresh_key_free|].
  split; [rewrite lookup_insert_eq; eauto|].
  intros b Hb. by rewrite lookup_insert_ne.
Qed.

Lemma get_object_value_failure_keeps_buffer_witness :
  let w := world_with_certificate ABC [NoFault; NoFault; Error 5] in
  let g := PKCS11_PAL_GetObjectValue eAwsDeviceCertificate caller_cells w in
  fst (fst g) = CKR_FUNCTION_FAILED
  /\ exists a,
       ppucData (snd (fst g)) = Z.pos a
       /\ heap w !! a = None
       /\ is_Some (block (ppucData (snd (fst g))) (snd g))
       /\ forall b, b <> a -> heap (snd g) !! b = heap w !! b.
Proof.
  apply (get_object_value_failure_keeps_buffer eAwsDeviceCertificate
           pkcs11palFILE_NAME_CLIENT_CERTIFICATE ABC caller_cells
           (world_with_certificate ABC [NoFault; NoFault; Error 5])).
  - unfold object_handles. set_solver.
  - reflexivity.
  - reflexivity.
  - intros e. discriminate.
  - intros e. discriminate.
  - vm_compute. discriminate.
Defined.

(** ** Find *)

(** Find changes nothing but the last-error value, and it returns a valid
    handle exactly when the label resolves to that handle and the file of the
    object exists; in every other case it returns the invalid handle. *)
Theorem find_reports_existing_objects cfg (pxLabel : option (list byte))
    (usLength : Z) (w : World) :
  let f := PKCS11_PAL_FindObject cfg pxLabel usLength w in
  files (snd f) = files w /\ handles (snd f) = handles w
  /\ heap (snd f) = heap w /\ faults (snd f) = faults w
  /\ (fst f <> eInvalidHandle <->
      exists name, resolve_label cfg pxLabel = (Some name, fst f)
                   /\ is_Some (files w !! name)).
Proof.
  cbv zeta. destruct w as [fs hs hp fl le].
  destruct (FindObject_any cfg pxLabel usLength fs hs hp fl le) as [le' ->].
  cbn [fst snd files handles heap faults]. repeat split; try reflexivity.
  - intros Hne. destruct (resolve_label cfg pxLabel) as [[name|] h]; [|done].
    exists name. destruct (fs !! name) eqn:Hfs; [eauto | done].
  - intros (name & E & [c Hc]). rewrite E, Hc.
    apply object_handle_valid. by destruct (resolve_label_location _ _ _ _ E).
Qed.

(** ** Save *)

Lemma SaveObject_unmapped cfg lab D n w :
  fst (resolve_label cfg (pValue lab)) = None ->
  PKCS11_PAL_SaveObject cfg lab D n w = (eInvalidHandle, w).
Proof.
  intros H. unfold PKCS11_PAL_SaveObject. fold (resolve_label cfg (pValue lab)).
  destruct (resolve_label cfg (pValue lab)) as [fn h] eqn:E. simpl in H. subst fn.
  apply resolve_label_none in E. subst h. reflexivity.
Qed.

(** Save never leaks a file handle and never touches the heap, whether it
    succeeds or fails, and the only file it can change is the one its label
    resolves to. *)
Theorem save_touches_only_its_file cfg (pxLabel : CK_ATTRIBUTE) (pucData : list byte)
    (ulDataSize : Z) (w : World) :
  let s := PKCS11_PAL_SaveObject cfg pxLabel pucData ulDataSize w in
  handles (snd s) = handles w
  /\ heap (snd s) = heap w
  /\ (forall other, fst (resolve_label cfg (pValue pxLabel)) <> Some other ->
        files (snd s) !! other = files w !! other).
Proof.
  cbv zeta. destruct (resolve_label cfg (pValue pxLabel)) as [[name|] h] eqn:E.
  - destruct w as [fs hs hp fl le].
    destruct (SaveObject_any cfg pxLabel pucData ulDataSize name h fs hs hp fl le E)
      as (r & fsx & fl' & le' & -> & H).
    cbn [fst snd files handles heap]. repeat split.
    intros other Hne. assert (name <> other) by congruence.
    destruct H as [(_ & -> & _)|[(_ & -> & _)|(_ & -> & _)]];
      by rewrite ?lookup_insert_ne.
  - rewrite SaveObject_unmapped by (by rewrite E). auto.
Qed.

(** A save that returns a valid handle has stored the object: the handle is
    the one the label resolves to and the file of that object holds exactly
    the first [ulDataSize] bytes of the data, whatever it held before. *)
Theorem save_success_stores_data cfg (pxLabel : CK_ATTRIBUTE) (pucData : list byte)
    (ulDataSize : Z) (w : World) :
  let s := PKCS11_PAL_SaveObject cfg pxLabel pucData ulDataSize w in
  fst s <> eInvalidHandle ->
  exists name,
    resolve_label cfg (pValue pxLabel) = (Some name, fst s)
    /\ files (snd s) !! name
       = Some (take (Z.to_nat (ulDataSize mod DWORD_MODULUS)) pucData).
Proof.
  cbv zeta. destruct (resolve_label cfg (pValue pxLabel)) as [[name|] h] eqn:E.
  - destruct w as [fs hs hp fl le].
    destruct (SaveObject_any cfg pxLabel pucData ulDataSize name h fs hs hp fl le E)
      as (r & fsx & fl' & le' & -> & H).
    cbn [fst snd files]. intros Hr. exists name.
    destruct H as [(-> & -> & _)|[(-> & _)|(-> & _)]]; try done.
    by rewrite lookup_insert_eq.
  - rewrite SaveObject_unmapped by (by rewrite E). done.
Qed.

Lemma save_success_stores_data_witness :
  let s := PKCS11_PAL_SaveObject stock_labels certificate_attribute longer_object 3
             (world_with_certificate ABC [ShortRead 0]) in
  exists name,
    resolve_label stock_labels (pValue certificate_attribute) = (Some name, fst s)
    /\ files (snd s) !! name
       = Some (take (Z.to_nat (3 mod DWORD_MODULUS)) longer_object).
Proof.
  apply (save_success_stores_data stock_labels certificate_attribute longer_object 3
           (world_with_certificate ABC [ShortRead 0])).
  vm_compute. discriminate.
Defined.

(** When the creation of the file fails, save returns the invalid handle and
    no file has changed: the object saved before is still there. *)
Theorem save_create_failure_keeps_object cfg (pxLabel : CK_ATTRIBUTE)
    (pucData : list byte) (ulDataSize : Z) (w : World) (e : Z) (rest : list fault) :
  faults w = Error e :: rest ->
  let s := PKCS11_PAL_SaveObject cfg pxLabel pucData ulDataSize w in
  fst s = eInvalidHandle /\ files (snd s) = files w.
Proof.
  intros Hfl. cbv zeta.
  destruct (resolve_label cfg (pValue pxLabel)) as [[name|] h] eqn:E.
  - destruct w as [fs hs hp fl le]. simpl in Hfl. subst fl.
    destruct (SaveObject_any cfg pxLabel pucData ulDataSize name h fs hs hp
                (Error e :: rest) le E) as (r & fsx & fl' & le' & -> & H).
    cbn [fst snd files hd] in *.
    destruct H as [(_ & _ & H & _)|[(-> & -> & _)|(_ & _ & H & _)]];
      [by destruct (H e) | done | by destruct (H e)].
  - rewrite SaveObject_unmapped by (by rewrite E). done.
Qed.

Lemma save_create_failure_keeps_object_witness :
  let s := PKCS11_PAL_SaveObject stock_labels certificate_attribute ABC 3
             (world_with_certificate longer_object [Error 5]) in
  fst s = eInvalidHandle
  /\ files (snd s) = files (world_with_certificate longer_object [Error 5]).
Proof.
  apply (save_create_failure_keeps_object stock_labels certificate_attribute ABC 3
           (world_with_certificate longer_object [Error 5]) 5 []).
  reflexivity.
Defined.

(** ** Read *)

(** A handle that is none of the four object handles is refused with
    [CKR_KEY_HANDLE_INVALID]; none of the three output cells is written and
    the environment is left as it was. *)
Theorem get_object_value_unrecognized_handle (xHandle : Z) (out : ObjectValue)
    (w : World) :
  xHandle ∉ object_handles ->
  PKCS11_PAL_GetObjectValue xHandle out w = (CKR_KEY_HANDLE_INVALID, out, w).
Proof. apply GetObjectValue_other. Qed.

Lemma get_object_value_unrecognized_handle_witness :
  PKCS11_PAL_GetObjectValue 999 caller_cells (world_with_certificate ABC [])
  = (CKR_KEY_HANDLE_INVALID, caller_cells, world_with_certificate ABC []).
Proof.
  apply (get_object_value_unrecognized_handle 999 caller_cells
           (world_with_certificate ABC [])).
  unfold object_handles. intros H.
  repeat (apply elem_of_cons in H; destruct H as [H|H]);
    try (by apply elem_of_nil in H); discriminate.
Defined.

(** The read never changes a file and never leaks a file handle: on every
    path, success or failure, the directory and the handle table are as they
    were. *)
Theorem get_object_value_keeps_files_and_handles (xHandle : Z) (out : ObjectValue)
    (w : World) :
  let g := PKCS11_PAL_GetObjectValue xHandle out w in
  files (snd g) = files w /\ handles (snd g) = handles w.
Proof.
  cbv zeta. destruct (decide (xHandle ∈ object_handles)) as [Hh|Hh];
    [|by rewrite (GetObjectValue_other _ _ _ Hh)].
  destruct (prvHandleToFilename_object xHandle CK_TRUE Hh) as (name & priv & E & Hloc).
  destruct (files w !! name) as [C|] eqn:Hfs.
  - destruct w as [fs hs hp fl le]. simpl in Hfs.
    destruct (GetObjectValue_any xHandle name out C fs hs hp fl le Hh Hloc Hfs)
      as (rv & out' & hp' & fl' & le' & -> & _ & _).
    by cbn.
  - destruct (GetObjectValue_absent _ _ out _ Hh Hloc Hfs) as [p ->].
    by destruct w.
Qed.

(** When the file of the object exists but cannot be opened, the read fails
    with [CKR_FUNCTION_FAILED] before anything is allocated: the data pointer
    and the size are not written and the heap is as it was. *)
Theorem get_object_value_open_failure (xHandle : Z) (name : string)
    (out : ObjectValue) (w : World) (e : Z) (rest : list fault) :
  xHandle ∈ object_handles ->
  location xHandle = Some name ->
  is_Some (files w !! name) ->
  faults w = Error e :: rest ->
  let g := PKCS11_PAL_GetObjectValue xHandle out w in
  fst (fst g) = CKR_FUNCTION_FAILED
  /\ ppucData (snd (fst g)) = ppucData out
  /\ pulDataSize (snd (fst g)) = pulDataSize out
  /\ heap (snd g) = heap w.
Proof.
  intros Hh Hloc [C Hfs] Hfl. cbv zeta.
  destruct w as [fs hs hp fl le]. simpl in Hfs, Hfl. subst fl.
  destruct (GetObjectValue_any xHandle name out C fs hs hp (Error e :: rest) le
              Hh Hloc Hfs) as (rv & out' & hp' & fl' & le' & -> & _ & H).
  cbn [fst snd heap hd] in *.
  destruct H as [(_ & -> & -> & -> & ->)|[(H & _)|(H & _)]];
    [done | by destruct (H e) | by destruct (H e)].
Qed.

Lemma get_object_value_open_failure_witness :
  let g := PKCS11_PAL_GetObjectValue eAwsDeviceCertificate caller_cells
             (world_with_certificate ABC [Error 32]) in
  fst (fst g) = CKR_FUNCTION_FAILED
  /\ ppucData (snd (fst g)) = ppucData caller_cells
  /\ pulDataSize (snd (fst g)) = pulDataSize caller_cells
  /\ heap (snd g) = heap (world_with_certificate ABC [Error 32]).
Proof.
  apply (get_object_value_open_failure eAwsDeviceCertificate
           pkcs11palFILE_NAME_CLIENT_CERTIFICATE caller_cells
           (world_with_certificate ABC [Error 32]) 32 []).
  - unfold object_handles. set_solver.
  - reflexivity.
  - vm_compute. eauto.
  - reflexivity.
Defined.

(** When the file is opened but the allocation fails, the read fails with
    [CKR_HOST_MEMORY]: the data pointer is set to NULL, the size cell holds
    the low 32 bits of the file size and the heap is as it was. *)
Theorem get_object_value_allocation_failure (xHandle : Z) (name : string)
    (out : ObjectValue) (w : World) (C : list byte)
    (f : fault) (e : Z) (rest : list fault) :
  xHandle ∈ object_handles ->
  location xHandle = Some name ->
  files w !! name = Some C ->
  faults w = f :: Error e :: rest ->
  (forall c, f <> Error c) ->
  let g := PKCS11_PAL_GetObjectValue xHandle out w in
  fst (fst g) = CKR_HOST_MEMORY
  /\ ppucData (snd (fst g)) = NULL
  /\ pulDataSize (snd (fst g)) = Z.of_nat (length C) mod DWORD_MODULUS
  /\ heap (snd g) = heap w.
Proof.
  intros Hh Hloc Hfs Hfl Hf. cbv zeta.
  destruct w as [fs hs hp fl le]. simpl in Hfs, Hfl. subst fl.
  destruct (GetObjectValue_any xHandle name out C fs hs hp (f :: Error e :: rest) le
              Hh Hloc Hfs) as (rv & out' & hp' & fl' & le' & -> & _ & H).
  cbn [fst snd heap hd tl] in *.
  destruct H as [([c Hc] & _)|[(_ & _ & -> & -> & -> & ->)|(_ & H & _)]];
    [by destruct (Hf c) | done | by destruct (H e)].
Qed.

Lemma get_object_value_allocation_failure_witness :
  let g := PKCS11_PAL_GetObjectValue eAwsDeviceCertificate caller_cells
             (world_with_certificate ABC [NoFault; Error 0]) in
  fst (fst g) = CKR_HOST_MEMORY
  /\ ppucData (snd (fst g)) = NULL
  /\ pulDataSize (snd (fst g)) = Z.of_nat (length ABC) mod DWORD_MODULUS
  /\ heap (snd g) = heap (world_with_certificate ABC [NoFault; Error 0]).
Proof.
  apply (get_object_value_allocation_failure eAwsDeviceCertificate
           pkcs11palFILE_NAME_CLIENT_CERTIFICATE caller_cells
           (world_with_certificate ABC [NoFault; Error 0]) ABC NoFault 0 []).
  - unfold object_handles. set_solver.
  - reflexivity.
  - reflexivity.
  - reflexivity.
  - intros c. discriminate.
Defined.

(** A read that reports [CKR_OK] for an object whose file exists has read
    it: the buffer it hands out is a block that was not allocated before and
    holds the first [size] bytes of the file, where [size], the value left in
    the size cell, is the file length modulo 2^32; for a file shorter than
    2^32 bytes that is the whole content and its length. *)
Theorem get_object_value_success_returns_file (xHandle : Z) (name : string)
    (out : ObjectValue) (w : World) (C : list byte) :
  xHandle ∈ object_handles ->
  location xHandle = Some name ->
  files w !! name = Some C ->
  let g := PKCS11_PAL_GetObjectValue xHandle out w in
  fst (fst g) = CKR_OK ->
  block (ppucData (snd (fst g))) w = None
  /\ pulDataSize (snd (fst g)) = Z.of_nat (length C) mod DWORD_MODULUS
  /\ block (ppucData (snd (fst g))) (snd g)
     = Some (take (Z.to_nat (pulDataSize (snd (fst g)))) C)
  /\ (Z.of_nat (length C) < DWORD_MODULUS ->
      block (ppucData (snd (fst g))) (snd g) = Some C
      /\ pulDataSize (snd (fst g)) = Z.of_nat (length C)).
Proof.
  intros Hh Hloc Hfs. cbv zeta.
  destruct w as [fs hs hp fl le]. simpl in Hfs.
  destruct (GetObjectValue_any xHandle name out C fs hs hp fl le Hh Hloc Hfs)
    as (rv & out' & hp' & fl' & le' & -> & _ & H).
  cbn [fst snd]. intros Hrv. subst rv.
  destruct H as [(_ & H & _)|[(_ & _ & H & _)|(_ & _ & Hp & Hs & H)]];
    [discriminate | discriminate |].
  destruct H as [(H & _)|(_ & _ & ->)]; [discriminate|].
  rewrite Hp, Hs. cbn [block heap]. rewrite lookup_insert_eq.
  split; [apply fresh_key_free|]. split; [reflexivity|]. split; [reflexivity|].
  intros Hlen. rewrite Z.mod_small by lia. rewrite Nat2Z.id, firstn_all. auto.
Qed.

Lemma get_object_value_success_returns_file_witness :
  let g := PKCS11_PAL_GetObjectValue eAwsDeviceCertificate caller_cells
             (world_with_certificate ABC [NoFault; NoFault; ShortRead 5]) in
  block (ppucData (snd (fst g)))
    (world_with_certificate ABC [NoFault; NoFault; ShortRead 5]) = None
  /\ pulDataSize (snd (fst g)) = Z.of_nat (length ABC) mod DWORD_MODULUS
  /\ block (ppucData (snd (fst g))) (snd g)
     = Some (take (Z.to_nat (pulDataSize (snd (fst g)))) ABC)
  /\ (Z.of_nat (length ABC) < DWORD_MODULUS ->
      block (ppucData (snd (fst g))) (snd g) = Some ABC
      /\ pulDataSize (snd (fst g)) = Z.of_nat (length ABC)).
Proof.
  apply (get_object_value_success_returns_file eAwsDeviceCertificate
           pkcs11palFILE_NAME_CLIENT_CERTIFICATE caller_cells
           (world_with_certificate ABC [NoFault; NoFault; ShortRead 5]) ABC).
  - unfold object_handles. set_solver.
  - reflexivity.
  - reflexivity.
  - vm_compute. reflexivity.
Defined.

Lemma prvHandleToFilename_privacy h cell p :
  h ∈ object_handles ->
  snd (prvHandleToFilename h (Some cell) p)
  = if h =? eAwsDevicePrivateKey then CK_TRUE else CK_FALSE.
Proof.
  unfold object_handles. intros H.
  repeat (apply elem_of_cons in H; destruct H as [H|H]);
    try (by apply elem_of_nil in H); subst; reflexivity.
Qed.

Lemma GetObjectValue_absent_cells h name out w :
  h ∈ object_handles ->
  location h = Some name ->
  files w !! name = None ->
  PKCS11_PAL_GetObjectValue h out w
  = (CKR_OK,
     mkObjectValue (ppucData out) (pulDataSize out)
       (snd (prvHandleToFilename h (Some None) (pIsPrivate out))),
     set_last_error ERROR_FILE_NOT_FOUND w).
Proof.
  intros Hh Hloc Hfs.
  destruct (prvHandleToFilename_object h (pIsPrivate out) Hh) as (name' & priv & E & Hloc').
  assert (name' = name) by congruence. subst name'.
  unfold PKCS11_PAL_GetObjectValue. rewrite !E. cbn [snd].
  unfold prvFileExists, GetFileAttributesA. os_run. rewrite Hfs. os_run. reflexivity.
Qed.

(** For each object handle the read sets the privacy flag on every path,
    before it looks at the file: to [CK_TRUE] for the private key and to
    [CK_FALSE] for the three other objects, also when the read then fails. *)
Theorem get_object_value_privacy_flag (xHandle : Z) (out : ObjectValue) (w : World) :
  xHandle ∈ object_handles ->
  pIsPrivate (snd (fst (PKCS11_PAL_GetObjectValue xHandle out w)))
  = if xHandle =? eAwsDevicePrivateKey then CK_TRUE else CK_FALSE.
Proof.
  intros Hh. rewrite <- (prvHandleToFilename_privacy xHandle None (pIsPrivate out) Hh).
  destruct (prvHandleToFilename_object xHandle CK_TRUE Hh) as (name & priv & E & Hloc).
  destruct (files w !! name) as [C|] eqn:Hfs.
  - destruct w as [fs hs hp fl le]. simpl in Hfs.
    destruct (GetObjectValue_any xHandle name out C fs hs hp fl le Hh Hloc Hfs)
      as (rv & out' & hp' & fl' & le' & -> & Hp & _).
    exact Hp.
  - by rewrite (GetObjectValue_absent_cells _ _ out _ Hh Hloc Hfs).
Qed.

Lemma get_object_value_privacy_flag_witness :
  pIsPrivate (snd (fst (PKCS11_PAL_GetObjectValue eAwsDevicePrivateKey
                          (mkObjectValue 0 0 CK_FALSE) empty_world)))
  = if eAwsDevicePrivateKey =? eAwsDevicePrivateKey then CK_TRUE else CK_FALSE.
Proof.
  apply (get_object_value_privacy_flag eAwsDevicePrivateKey
           (mkObjectValue 0 0 CK_FALSE) empty_world).
  unfold object_handles. set_solver.
Defined.

(** ** Release of the buffer *)

(** Whenever the read has allocated (the heap has changed), on success and
    on failure alike, passing the data pointer it left to the cleanup
    function gives the heap back exactly as it was before the read, and the
    cleanup touches neither files nor handles; the size argument plays no
    part. *)
Theorem cleanup_releases_read_buffer (xHandle : Z) (out : ObjectValue) (w : World)
    (ulDataSize : Z) :
  let g := PKCS11_PAL_GetObjectValue xHandle out w in
  let c := PKCS11_PAL_GetObjectValueCleanup (ppucData (snd (fst g))) ulDataSize (snd g) in
  heap (snd g) <> heap w ->
  heap (snd c) = heap w
  /\ files (snd c) = files (snd g) /\ handles (snd c) = handles (snd g).
Proof.
  cbv zeta. intros Hheap.
  destruct (GetObjectValue_heap xHandle out w) as [H|(a & Ha & Hfree & Hlive & Hrest)];
    [contradiction|].
  rewrite Ha. unfold PKCS11_PAL_GetObjectValueCleanup, vPortFree.
  change (NULL =? Z.pos a) with false. cbn [negb].
  destruct (PKCS11_PAL_GetObjectValue xHandle out w) as [[rv out'] w'].
  cbn [fst snd] in *. destruct w'. cbn [set_heap heap files handles snd] in *.
  split; [|done]. apply map_eq. intros b.
  destruct (decide (b = a)) as [->|Hb].
  - by rewrite lookup_delete_eq, Hfree.
  - rewrite lookup_delete_ne by done. by apply Hrest.
Qed.

Lemma cleanup_releases_read_buffer_witness :
  let w := world_with_certificate ABC [NoFault; NoFault; Error 5] in
  let g := PKCS11_PAL_GetObjectValue eAwsDeviceCertificate caller_cells w in
  let c := PKCS11_PAL_GetObjectValueCleanup (ppucData (snd (fst g))) 0 (snd g) in
  heap (snd c) = heap w
  /\ files (snd c) = files (snd g) /\ handles (snd c) = handles (snd g).
Proof.
  apply (cleanup_releases_read_buffer eAwsDeviceCertificate caller_cells
           (world_with_certificate ABC [NoFault; NoFault; Error 5]) 0).
  vm_compute. discriminate.
Defined.

(** ** Destroy *)

(** Destroy never touches the heap or the handle table, the only file it can
    remove is the one of its handle, and when it does not return [CKR_OK] no
    file has changed at all. *)
Theorem destroy_touches_only_its_file (xHandle : Z) (w : World) :
  let d := PKCS11_PAL_DestroyObject xHandle w in
  handles (snd d) = handles w
  /\ heap (snd d) = heap w
  /\ (forall other, location xHandle <> Some other ->
        files (snd d) !! other = files w !! other)
  /\ (fst d <> CKR_OK -> files (snd d) = files w).
Proof.
  cbv zeta. destruct (decide (xHandle ∈ object_handles)) as [Hh|Hh];
    [|by rewrite (DestroyObject_other _ _ Hh)].
  destruct (prvHandleToFilename_object xHandle CK_TRUE Hh) as (name & priv & E & Hloc).
  destruct w as [fs hs hp fl le].
  destruct (DestroyObject_any xHandle name fs hs hp fl le Hh Hloc)
    as (rv & fsx & fl' & le' & -> & H).
  cbn [fst snd files handles heap]. repeat split.
  - intros other Hne. assert (name <> other) by congruence.
    destruct H as [(_ & _ & -> & _)|[(_ & _ & _ & ->)|(_ & _ & _ & ->)]];
      by rewrite ?lookup_delete_ne.
  - intros Hrv.
    destruct H as [(_ & _ & -> & _)|[(_ & _ & _ & ->)|(_ & _ & -> & _)]]; done.
Qed.

(** A destroy that returns [CKR_OK] leaves no file for the object, and a
    find for any label that resolves to the handle then gives the invalid
    handle. *)
Theorem destroy_success_removes_object (xHandle : Z) (name : string) (w : World) :
  xHandle ∈ object_handles ->
  location xHandle = Some name ->
  let d := PKCS11_PAL_DestroyObject xHandle w in
  fst d = CKR_OK ->
  files (snd d) !! name = None
  /\ (forall cfg pxLabel usLength,
        snd (resolve_label cfg pxLabel) = xHandle ->
        fst (PKCS11_PAL_FindObject cfg pxLabel usLength (snd d)) = eInvalidHandle).
Proof.
  intros Hh Hloc. cbv zeta. destruct w as [fs hs hp fl le].
  destruct (DestroyObject_any xHandle name fs hs hp fl le Hh Hloc)
    as (rv & fsx & fl' & le' & -> & H).
  cbn [fst snd files]. intros ->.
  assert (fsx !! name = None) as Hgone.
  { destruct H as [(H & _ & -> & _)|[(_ & _ & H & _)|(_ & _ & _ & ->)]];
      [done | discriminate | apply lookup_delete_eq]. }
  split; [exact Hgone|]. intros cfg pxLabel usLength Hres.
  destruct (FindObject_any cfg pxLabel usLength fsx hs hp fl' le') as [le'' ->].
  cbn [fst]. destruct (resolve_label cfg pxLabel) as [[n|] h] eqn:E; [|done].
  cbn [snd] in Hres. subst h.
  destruct (resolve_label_location _ _ _ _ E) as [_ Hn].
  assert (n = name) by congruence. subst n. by rewrite Hgone.
Qed.

Lemma destroy_success_removes_object_witness :
  let d := PKCS11_PAL_DestroyObject eAwsDeviceCertificate
             (world_with_certificate ABC [ShortRead 0]) in
  files (snd d) !! pkcs11palFILE_NAME_CLIENT_CERTIFICATE = None
  /\ (forall cfg pxLabel usLength,
        snd (resolve_label cfg pxLabel) = eAwsDeviceCertificate ->
        fst (PKCS11_PAL_FindObject cfg pxLabel usLength (snd d)) = eInvalidHandle).
Proof.
  apply (destroy_success_removes_object eAwsDeviceCertificate
           pkcs11palFILE_NAME_CLIENT_CERTIFICATE
           (world_with_certificate ABC [ShortRead 0])).
  - unfold object_handles. set_solver.
  - reflexivity.
  - vm_compute. reflexivity.
Defined.

(** When the deletion itself fails, destroy returns [CKR_FUNCTION_FAILED]
    and the object is still there with its content. *)
Theorem destroy_failure_keeps_object (xHandle : Z) (name : string) (w : World)
    (C : list byte) (e : Z) (rest : list fault) :
  xHandle ∈ object_handles ->
  location xHandle = Some name ->
  files w !! name = Some C ->
  faults w = Error e :: rest ->
  let d := PKCS11_PAL_DestroyObject xHandle w in
  fst d = CKR_FUNCTION_FAILED /\ files (snd d) !! name = Some C.
Proof.
  intros Hh Hloc Hfs Hfl. cbv zeta. destruct w as [fs hs hp fl le].
  simpl in Hfs, Hfl. subst fl.
  destruct (DestroyObject_any xHandle name fs hs hp (Error e :: rest) le Hh Hloc)
    as (rv & fsx & fl' & le' & -> & H).
  cbn [fst snd files hd] in *.
  destruct H as [(H & _)|[(_ & _ & -> & ->)|(_ & H & _)]];
    [congruence | done | by destruct (H e)].
Qed.

Lemma destroy_failure_keeps_object_witness :
  let d := PKCS11_PAL_DestroyObject eAwsDeviceCertificate
             (world_with_certificate ABC [Error 32]) in
  fst d = CKR_FUNCTION_FAILED
  /\ files (snd d) !! pkcs11palFILE_NAME_CLIENT_CERTIFICATE = Some ABC.
Proof.
  apply (destroy_failure_keeps_object eAwsDeviceCertificate
           pkcs11palFILE_NAME_CLIENT_CERTIFICATE
           (world_with_certificate ABC [Error 32]) ABC 32 []).
  - unfold object_handles. set_solver.
  - reflexivity.
  - reflexivity.
  - reflexivity.
Defined.

(** ** Objects do not interfere *)

(** In an environment that injects no failure, saving a second object under
    a label that resolves to another handle leaves the first one readable
    with its own content. *)
Theorem objects_are_independent cfg (l1 l2 : CK_ATTRIBUTE) (n1 n2 : string)
    (h1 h2 : Z) (D1 D2 : list byte) (out : ObjectValue) (w : World) :
  resolve_label cfg (pValue l1) = (Some n1, h1) ->
  resolve_label cfg (pValue l2) = (Some n2, h2) ->
  h1 <> h2 ->
  Z.of_nat (length D1) < DWORD_MODULUS ->
  quiet w ->
  let s1 := PKCS11_PAL_SaveObject cfg l1 D1 (Z.of_nat (length D1)) w in
  let s2 := PKCS11_PAL_SaveObject cfg l2 D2 (Z.of_nat (length D2)) (snd s1) in
  let g := PKCS11_PAL_GetObjectValue h1 out (snd s2) in
  fst (fst g) = CKR_OK
  /\ block (ppucData (snd (fst g))) (snd g) = Some D1
  /\ pulDataSize (snd (fst g)) = Z.of_nat (length D1).
Proof.
  intros E1 E2 Hne Hlen Q.
  destruct (resolve_label_location _ _ _ _ E1) as [Hh1 Hloc1].
  destruct (resolve_label_location _ _ _ _ E2) as [Hh2 Hloc2].
  assert (n2 <> n1) as Hn.
  { intros ->. apply Hne. apply location_inj; congruence. }
  destruct w as [fs hs hp fl le]. unfold quiet in Q. simpl in Q. cbv zeta.
  rewrite (SaveObject_quiet _ _ _ _ _ _ _ _ _ _ _ E1 Q), (save_whole D1 Hlen).
  cbn [fst snd].
  rewrite (SaveObject_quiet _ _ _ _ _ _ _ _ _ _ _ E2 (quiet_tl _ (quiet_tl _ Q))).
  cbn [fst snd].
  edestruct (GetObjectValue_quiet h1 n1 out D1) as [priv ->];
    [exact Hh1 | exact Hloc1 | | exact Hlen
     | exact (quiet_tl _ (quiet_tl _ (quiet_tl _ (quiet_tl _ Q)))) | ].
  { rewrite lookup_insert_ne by done. apply lookup_insert_eq. }
  cbn [fst snd ppucData pulDataSize block heap]. rewrite lookup_insert_eq. auto.
Qed.

Lemma objects_are_independent_witness :
  let l2 := mkAttribute 3 (Some (c_literal "Device Priv TLS Key")) 19 in
  let s1 := PKCS11_PAL_SaveObject stock_labels certificate_attribute ABC
              (Z.of_nat (length ABC)) empty_world in
  let s2 := PKCS11_PAL_SaveObject stock_labels l2 longer_object
              (Z.of_nat (length longer_object)) (snd s1) in
  let g := PKCS11_PAL_GetObjectValue eAwsDeviceCertificate caller_cells (snd s2) in
  fst (fst g) = CKR_OK
  /\ block (ppucData (snd (fst g))) (snd g) = Some ABC
  /\ pulDataSize (snd (fst g)) = Z.of_nat (length ABC).
Proof.
  apply (objects_are_independent stock_labels certificate_attribute
           (mkAttribute 3 (Some (c_literal "Device Priv TLS Key")) 19)
           pkcs11palFILE_NAME_CLIENT_CERTIFICATE pkcs11palFILE_NAME_KEY
           eAwsDeviceCertificate eAwsDevicePrivateKey).
  - vm_compute. reflexivity.
  - vm_compute. reflexivity.
  - discriminate.
  - vm_compute. reflexivity.
  - constructor.
Defined.

(** ** Save and find together *)

(** A save that returns a valid handle is visible at once: a find with the
    same label returns that handle. *)
Theorem successful_save_is_found cfg (pxLabel : CK_ATTRIBUTE) (pucData : list byte)
    (ulDataSize usLength : Z) (w : World) :
  let s := PKCS11_PAL_SaveObject cfg pxLabel pucData ulDataSize w in
  fst s <> eInvalidHandle ->
  fst (PKCS11_PAL_FindObject cfg (pValue pxLabel) usLength (snd s)) = fst s.
Proof.
  cbv zeta. destruct (resolve_label cfg (pValue pxLabel)) as [[name|] h] eqn:E.
  - destruct w as [fs hs hp fl le].
    destruct (SaveObject_any cfg pxLabel pucData ulDataSize name h fs hs hp fl le E)
      as (r & fsx & fl' & le' & -> & H).
    cbn [fst snd]. intros Hr.
    destruct (FindObject_any cfg (pValue pxLabel) usLength fsx hs hp fl' le') as [le'' ->].
    cbn [fst]. rewrite E.
    destruct H as [(-> & -> & _)|[(-> & _)|(-> & _)]]; try done.
    by rewrite lookup_insert_eq.
  - rewrite SaveObject_unmapped by (by rewrite E). done.
Qed.

Lemma successful_save_is_found_witness :
  let s := PKCS11_PAL_SaveObject stock_labels certificate_attribute ABC 3 empty_world in
  fst (PKCS11_PAL_FindObject stock_labels (pValue certificate_attribute) 0 (snd s))
  = fst s.
Proof.
  apply (successful_save_is_found stock_labels certificate_attribute ABC 3 0 empty_world).
  vm_compute. discriminate.
Defined.

(** A save that fails in the write still leaves an object behind: it
    returns the invalid handle, yet a find with the same label then returns
    the valid handle of the object, whose file exists and is empty. *)
Theorem failed_save_still_found cfg (pxLabel : CK_ATTRIBUTE) (pucData : list byte)
    (ulDataSize usLength : Z) (name : string) (h : Z) (w : World)
    (f : fault) (e : Z) (rest : list fault) :
  resolve_label cfg (pValue pxLabel) = (Some name, h) ->
  faults w = f :: Error e :: rest ->
  (forall c, f <> Error c) ->
  let s := PKCS11_PAL_SaveObject cfg pxLabel pucData ulDataSize w in
  fst s = eInvalidHandle
  /\ fst (PKCS11_PAL_FindObject cfg (pValue pxLabel) usLength (snd s)) = h
  /\ h <> eInvalidHandle.
Proof.
  intros E Hfl Hf. cbv zeta. destruct w as [fs hs hp fl le]. simpl in Hfl. subst fl.
  destruct (SaveObject_any cfg pxLabel pucData ulDataSize name h fs hs hp
              (f :: Error e :: rest) le E) as (r & fsx & fl' & le' & -> & H).
  cbn [fst snd hd tl] in *.
  destruct (FindObject_any cfg (pValue pxLabel) usLength fsx hs hp fl' le') as [le'' ->].
  cbn [fst]. rewrite E.
  destruct H as [(_ & _ & _ & H)|[(_ & _ & [c Hc])|(-> & -> & _)]];
    [by destruct (H e) | by destruct (Hf c) |].
  rewrite lookup_insert_eq. repeat split.
  apply object_handle_valid. by destruct (resolve_label_location _ _ _ _ E).
Qed.

Lemma failed_save_still_found_witness :
  let s := PKCS11_PAL_SaveObject stock_labels certificate_attribute ABC 3
             (mkWorld ∅ ∅ ∅ [NoFault; Error 112] 0) in
  fst s = eInvalidHandle
  /\ fst (PKCS11_PAL_FindObject stock_labels (pValue certificate_attribute) 11 (snd s))
     = eAwsDeviceCertificate
  /\ eAwsDeviceCertificate <> eInvalidHandle.
Proof.
  apply (failed_save_still_found stock_labels certificate_attribute ABC 3 11
           pkcs11palFILE_NAME_CLIENT_CERTIFICATE eAwsDeviceCertificate
           (mkWorld ∅ ∅ ∅ [NoFault; Error 112] 0) NoFault 112 []).
  - vm_compute. reflexivity.
  - reflexivity.
  - intros c. discriminate.
Defined.

(** ** A read whose [ReadFile] fails *)

(** When the file is opened and the buffer allocated but [ReadFile] fails,
    the read returns [CKR_FUNCTION_FAILED]; the size cell already holds the
    low 32 bits of the file size and the data pointer the address of the
    block, which is not NULL. *)
Theorem get_object_value_read_failure (xHandle : Z) (name : string)
    (out : ObjectValue) (w : World) (C : list byte)
    (f1 f2 : fault) (e : Z) (rest : list fault) :
  xHandle ∈ object_handles ->
  location xHandle = Some name ->
  files w !! name = Some C ->
  faults w = f1 :: f2 :: Error e :: rest ->
  (forall c, f1 <> Error c) ->
  (forall c, f2 <> Error c) ->
  let g := PKCS11_PAL_GetObjectValue xHandle out w in
  fst (fst g) = CKR_FUNCTION_FAILED
  /\ pulDataSize (snd (fst g)) = Z.of_nat (length C) mod DWORD_MODULUS
  /\ ppucData (snd (fst g)) <> NULL.
Proof.
  intros Hh Hloc Hfs Hfl Hf1 Hf2. cbv zeta.
  destruct w as [fs hs hp fl le]. simpl in Hfs, Hfl. subst fl.
  destruct (GetObjectValue_any xHandle name out C fs hs hp
              (f1 :: f2 :: Error e :: rest) le Hh Hloc Hfs)
    as (rv & out' & hp' & fl' & le' & -> & _ & H).
  cbn [fst snd hd tl] in *.
  destruct H as [([c Hc] & _)|[(_ & [c Hc] & _)|(_ & _ & -> & -> & H)]];
    [by destruct (Hf1 c) | by destruct (Hf2 c) |].
  destruct H as [(-> & _)|(_ & H & _)]; [done | by destruct (H e)].
Qed.

Lemma get_object_value_read_failure_witness :
  let g := PKCS11_PAL_GetObjectValue eAwsDeviceCertificate caller_cells
             (world_with_certificate ABC [NoFault; NoFault; Error 5]) in
  fst (fst g) = CKR_FUNCTION_FAILED
  /\ pulDataSize (snd (fst g)) = Z.of_nat (length ABC) mod DWORD_MODULUS
  /\ ppucData (snd (fst g)) <> NULL.
Proof.
  apply (get_object_value_read_failure eAwsDeviceCertificate
           pkcs11palFILE_NAME_CLIENT_CERTIFICATE caller_cells
           (world_with_certificate ABC [NoFault; NoFault; Error 5]) ABC
           NoFault NoFault 5 []).
  - unfold object_handles. set_solver.
  - reflexivity.
  - reflexivity.
  - reflexivity.
  - intros c. discriminate.
  - intros c. discriminate.
Defined.
